(** * Dragon drag-and-drop: the reordering engine of [src/dom.ts] and
    [src/droppable.tsx], embedded as functions over an explicit browser state.

    Conventions of the embedding.
    - Pixel coordinates, sizes and durations are JavaScript numbers; the
      development keeps them as integers ([Z]).  The only division of the
      source, [window.innerHeight / 2], is kept exact by comparing doubled
      values (lemma [half_viewport_test] relates it to the rational test).
    - An [HTMLElement] reference is a [NodeId]; the elements live in a store
      ([elements : NodeId -> Element]) that every operation threads, so that
      two references to one element alias.
    - Closures that the source stores or registers (unsubscribers, timers,
      [scope.removePlaceholder], event listeners) are kept as data and run by
      an interpreter next to their definition.
    - Callbacks supplied by the surrounding application ([onDragEnd],
      [onDragOver], [onInsertPlaceholder], [mergeState], [resetState]) are not
      part of these files: each invocation is appended to the [calls] log of
      the state.  The log also records every run of an unsubscriber.
    - The browser is kept to what the engine reads and writes.  A rectangle
      and a computed style are what the browser has laid out when a handler
      runs: fields of the element that a style write does not update.  The
      inline style is a map from property names to declared texts, with a
      shorthand and its longhands as separate entries; facts that depend on
      the difference are stated for styles that declare no related property
      ([declaresApart]).  A quoted attribute selector is attribute equality,
      the browser's reading of an id without quote, backslash or line break
      ([selectorLiteral]). *)

From stdpp Require Import base strings pretty list functions gmap.
From Stdlib Require Import ZArith QArith Lia.

Local Open Scope Z_scope.

(** ** Data model *)

(** [ID] of [./types]: identifiers are compared through their template-string
    rendering, so they are kept as text. *)
Definition ID : Type := string.

Definition NodeId : Type := nat.

Inductive Direction : Type := vertical | horizontal.

#[global] Instance Direction_eq_dec : EqDecision Direction.
Proof. solve_decision. Defined.

Record Pointer : Type := mkPointer { clientX : Z; clientY : Z }.

(** The fields of a [DOMRect] that the engine reads. *)
Record DOMRect : Type := mkRect { top : Z; left : Z; width : Z; height : Z }.

(** [DOMRect.bottom] of a rectangle with non-negative height. *)
Definition bottom (r : DOMRect) : Z := top r + height r.

(** The entries of [getComputedStyle(node)] that the engine reads.  The
    lengths are stored as the integers [parseInt(_, 10)] yields for them. *)
Record ComputedStyle : Type := mkComputed {
  transform : string;
  marginTop : Z;
  marginLeft : Z;
  paddingTop : Z;
  paddingLeft : Z
}.

Record Element : Type := mkElement {
  attributes : gmap string string;
  boundingClientRect : DOMRect;
  computedStyle : ComputedStyle;
  style : gmap string string;
  parentElement : option NodeId;
  childNodes : list NodeId
}.

Record Window : Type := mkWindow { innerWidth : Z; innerHeight : Z }.

(** ** [src/dom.ts] *)

Definition CONTEXT_ID_ATTR : string := "data-dnd-context-id".
Definition DROPPABLE_ID_ATTR : string := "data-dnd-droppable-id".
Definition DRAGGABLE_ID_ATTR : string := "data-dnd-draggable-id".

(** [namesMap[key] || key] of [setStyles]. *)
Definition namesMap (key : string) : string :=
  if decide (key = "zIndex") then "z-index"
  else if decide (key = "transformOrigin") then "transform-origin"
  else key.

(** [node.style.getPropertyValue(key)]: the empty string when undeclared. *)
Definition getPropertyValue (key : string) (s : gmap string string) : string :=
  default "" (s !! key).

(** The loop of [setStyles] over [Object.keys(style)], on a style
    declaration block. *)
Definition setStyleProperties (block : list (string * string))
    (s : gmap string string) : gmap string string :=
  foldl (fun acc kv => <[namesMap kv.1 := kv.2]> acc) s block.

(** The loop of [removeStyles]: a property is removed when its value is
    non-empty. *)
Definition removeStyleProperties (keys : list string)
    (s : gmap string string) : gmap string string :=
  foldl (fun acc key =>
           if decide (getPropertyValue key acc = "") then acc
           else delete key acc) s keys.

Definition getThreshold (win : Window) (rect : DOMRect) (pointer : Pointer)
    : Z * Z :=
  let thresholdY :=
    if 0 <? top rect then top rect
    else if 2 * clientY pointer <? innerHeight win then 0
    else innerHeight win in
  let thresholdX :=
    if 0 <? left rect then left rect
    else if 2 * clientX pointer <? innerWidth win then 0
    else innerWidth win in
  (thresholdY, thresholdX).

Definition thresholdY (t : Z * Z) : Z := t.1.
Definition thresholdX (t : Z * Z) : Z := t.2.

(** ** Browser state *)

(** Props and context state captured by one render of [Droppable]
    (lines 33-62); the closures created by that render share it. *)
Record DroppableEnv : Type := mkEnv {
  direction : Direction;
  droppableID : ID;
  droppableGroupID : ID;
  transitionTimeout : Z;
  transitionTimingFn : string;
  debounceTimeout : Z;
  disabled : bool;
  isSomeDragging : bool;
  contextID : Z;
  nodeWidth : Z;
  nodeHeight : Z;
  activeDraggableID : ID;
  activeDroppableID : ID;
  activeDroppableGroupID : ID;
  rootNode : option NodeId;
  nodes : list NodeId
}.

#[global] Instance DroppableEnv_eq_dec : EqDecision DroppableEnv.
Proof. solve_decision. Defined.

(** Lines 56-58. *)
Definition isActiveGroup (env : DroppableEnv) : bool :=
  negb (disabled env)
  && bool_decide (droppableGroupID env = activeDroppableGroupID env).

Definition isActive (env : DroppableEnv) : bool :=
  isActiveGroup env && bool_decide (droppableID env = activeDroppableID env).

Definition isDragging (env : DroppableEnv) : bool :=
  isSomeDragging env && isActive env.

Inductive EventTarget : Type := DocumentTarget | NodeTarget (n : NodeId).

#[global] Instance EventTarget_eq_dec : EqDecision EventTarget.
Proof. solve_decision. Defined.

(** Functions registered as event listeners.  The stamp [k] is the identity
    of the closure: every effect run and every release creates a new one. *)
Inductive Callback : Type :=
| SensorHandler (k : nat)
| HandleTransitionEnd (k : nat) (env : DroppableEnv) (nearestNode : NodeId).

#[global] Instance Callback_eq_dec : EqDecision Callback.
Proof. solve_decision. Defined.

Record Listener : Type := mkListener {
  listenerTarget : EventTarget;
  listenerType : string;
  listenerCallback : Callback
}.

#[global] Instance Listener_eq_dec : EqDecision Listener.
Proof. solve_decision. Defined.

(** The [unsubscribe] closure of a sensor effect: it removes [handleEvent]
    from the document for the two event types it was added for. *)
Record Unsubscriber : Type := mkUnsubscriber {
  unsubTypes : string * string;
  unsubHandler : Callback
}.

#[global] Instance Unsubscriber_eq_dec : EqDecision Unsubscriber.
Proof. solve_decision. Defined.

(** The values [scope.removePlaceholder] takes. *)
Inductive RemovePlaceholderFn : Type :=
| NoopRemove
| DetachPlaceholder (placeholder : NodeId).

Module Descriptor.
(** The object handed to [onDragEnd] (lines 94-102). *)
Record t : Type := mk {
  draggableID : ID;
  droppableID : ID;
  droppableGroupID : ID;
  sourceIdx : Z;
  destinationIdx : Z;
  isMoving : bool;
  targetNode : NodeId
}.
End Descriptor.

(** Closures handed to [setTimeout]. *)
Inductive Task : Type :=
| CompleteTask (env : DroppableEnv) (targetNode : NodeId)
| DragEndCleanupTask (env : DroppableEnv).

Inductive Call : Type :=
| CallUnsubscribe (u : Unsubscriber)
| CallOnInsertPlaceholder
| CallOnIntersect (droppableID : ID)
| CallOnDragOver (nearestNode : option NodeId) (targetNode : NodeId)
| CallOnDragEnd (d : Descriptor.t)
| CallResetState.

Record TransitionEvent : Type := mkTransitionEvent {
  eventTarget : NodeId;
  propertyName : string
}.

Record World : Type := mkWorld {
  window : Window;
  elements : NodeId -> Element;
  (** connected elements matching [[data-dnd-context-id]], in tree order *)
  dndElements : list NodeId;
  nextNode : NodeId;
  listeners : list Listener;
  nextCallback : nat;
  unsubscribers : list Unsubscriber;
  timers : list (Z * Task);
  removePlaceholder : RemovePlaceholderFn;
  nearestNodeRef : option NodeId;
  calls : list Call
}.

(** The helpers of [./utils] that are imported by [droppable.tsx] and are
    not among the source files. *)
Class Utils : Type := {
  safeNumber : Z -> Z;
  getActiveDroppableNode : World -> Z -> ID -> option NodeId
}.

Definition set_elements (f : NodeId -> Element) (w : World) : World :=
  mkWorld (window w) f (dndElements w) (nextNode w) (listeners w)
    (nextCallback w) (unsubscribers w) (timers w) (removePlaceholder w)
    (nearestNodeRef w) (calls w).

Definition set_nextNode (n : NodeId) (w : World) : World :=
  mkWorld (window w) (elements w) (dndElements w) n (listeners w)
    (nextCallback w) (unsubscribers w) (timers w) (removePlaceholder w)
    (nearestNodeRef w) (calls w).

Definition set_listeners (ls : list Listener) (w : World) : World :=
  mkWorld (window w) (elements w) (dndElements w) (nextNode w) ls
    (nextCallback w) (unsubscribers w) (timers w) (removePlaceholder w)
    (nearestNodeRef w) (calls w).

Definition set_nextCallback (k : nat) (w : World) : World :=
  mkWorld (window w) (elements w) (dndElements w) (nextNode w) (listeners w)
    k (unsubscribers w) (timers w) (removePlaceholder w)
    (nearestNodeRef w) (calls w).

Definition set_unsubscribers (us : list Unsubscriber) (w : World) : World :=
  mkWorld (window w) (elements w) (dndElements w) (nextNode w) (listeners w)
    (nextCallback w) us (timers w) (removePlaceholder w)
    (nearestNodeRef w) (calls w).

Definition set_timers (ts : list (Z * Task)) (w : World) : World :=
  mkWorld (window w) (elements w) (dndElements w) (nextNode w) (listeners w)
    (nextCallback w) (unsubscribers w) ts (removePlaceholder w)
    (nearestNodeRef w) (calls w).

Definition set_removePlaceholder (f : RemovePlaceholderFn) (w : World)
    : World :=
  mkWorld (window w) (elements w) (dndElements w) (nextNode w) (listeners w)
    (nextCallback w) (unsubscribers w) (timers w) f
    (nearestNodeRef w) (calls w).

Definition set_nearestNodeRef (r : option NodeId) (w : World) : World :=
  mkWorld (window w) (elements w) (dndElements w) (nextNode w) (listeners w)
    (nextCallback w) (unsubscribers w) (timers w) (removePlaceholder w)
    r (calls w).

Definition set_calls (cs : list Call) (w : World) : World :=
  mkWorld (window w) (elements w) (dndElements w) (nextNode w) (listeners w)
    (nextCallback w) (unsubscribers w) (timers w) (removePlaceholder w)
    (nearestNodeRef w) cs.

Definition logCall (c : Call) (w : World) : World :=
  set_calls (calls w ++ [c]) w.

(** [setTimeout(task, delay)]. *)
Definition setTimeout (task : Task) (delay : Z) (w : World) : World :=
  set_timers (timers w ++ [(delay, task)]) w.

Definition set_style (s : gmap string string) (e : Element) : Element :=
  mkElement (attributes e) (boundingClientRect e) (computedStyle e) s
    (parentElement e) (childNodes e).

Definition set_parentElement (p : option NodeId) (e : Element) : Element :=
  mkElement (attributes e) (boundingClientRect e) (computedStyle e) (style e)
    p (childNodes e).

Definition set_childNodes (cs : list NodeId) (e : Element) : Element :=
  mkElement (attributes e) (boundingClientRect e) (computedStyle e) (style e)
    (parentElement e) cs.

Definition getBoundingClientRect (w : World) (node : NodeId) : DOMRect :=
  boundingClientRect (elements w node).

Definition getComputedStyle (w : World) (node : NodeId) : ComputedStyle :=
  computedStyle (elements w node).

Definition getAttribute (w : World) (node : NodeId) (name : string)
    : option string :=
  attributes (elements w node) !! name.

(** ** [src/dom.ts], on elements of the state *)

Definition setStyles (node : NodeId) (block : list (string * string))
    (w : World) : World :=
  set_elements
    (alter (fun e => set_style (setStyleProperties block (style e)) e)
       node (elements w)) w.

(** [removeStyleAttrIfEmpty] only drops an empty [style] attribute and
    leaves the declarations as they are. *)
Definition removeStyles (node : NodeId) (keys : list string) (w : World)
    : World :=
  set_elements
    (alter (fun e => set_style (removeStyleProperties keys (style e)) e)
       node (elements w)) w.

Definition detectIsActiveDraggableNode (w : World) (node : NodeId)
    (activeDraggableID : ID) : bool :=
  bool_decide (getAttribute w node DRAGGABLE_ID_ATTR = Some activeDraggableID).

(** [document.querySelector] for the selector of [getActiveDraggableNode]. *)
Definition getActiveDraggableNode (w : World) (contextID : Z)
    (activeDraggableID : ID) : option NodeId :=
  List.find
    (fun n =>
       bool_decide (getAttribute w n CONTEXT_ID_ATTR = Some (pretty contextID))
       && bool_decide
            (getAttribute w n DRAGGABLE_ID_ATTR = Some activeDraggableID))
    (dndElements w).

(** [document.querySelectorAll] for the selector of [getItemNodes]. *)
Definition getItemNodes (w : World) (contextID : Z) (droppableID : ID)
    : list NodeId :=
  List.filter
    (fun n =>
       bool_decide (getAttribute w n CONTEXT_ID_ATTR = Some (pretty contextID))
       && bool_decide (getAttribute w n DROPPABLE_ID_ATTR = Some droppableID)
       && bool_decide (is_Some (getAttribute w n DRAGGABLE_ID_ATTR)))
    (dndElements w).

(** ** Event listeners *)

Definition addEventListener (target : EventTarget) (type : string)
    (cb : Callback) (w : World) : World :=
  let l := mkListener target type cb in
  if decide (l ∈ listeners w) then w
  else set_listeners (listeners w ++ [l]) w.

Definition removeEventListener (target : EventTarget) (type : string)
    (cb : Callback) (w : World) : World :=
  set_listeners
    (List.filter (fun l => negb (bool_decide (l = mkListener target type cb)))
       (listeners w)) w.

(** Running an [unsubscribe] closure (lines 290-293, 369-372, 446-449). *)
Definition callUnsubscriber (u : Unsubscriber) (w : World) : World :=
  let w := logCall (CallUnsubscribe u) w in
  let w := removeEventListener DocumentTarget (unsubTypes u).1
             (unsubHandler u) w in
  removeEventListener DocumentTarget (unsubTypes u).2 (unsubHandler u) w.

(** The body shared by the three sensor effects after their guard: a new
    [handleEvent] is added to the document for two event types and its
    [unsubscribe] is pushed on the registry. *)
Definition subscribe (types : string * string) (w : World) : World :=
  let handleEvent := SensorHandler (nextCallback w) in
  let w := set_nextCallback (S (nextCallback w)) w in
  let w := addEventListener DocumentTarget types.1 handleEvent w in
  let w := addEventListener DocumentTarget types.2 handleEvent w in
  set_unsubscribers (unsubscribers w ++ [mkUnsubscriber types handleEvent]) w.

Definition useIntersectionEffect (env : DroppableEnv) (w : World) : World :=
  if negb (isSomeDragging env) then w
  else subscribe ("mousemove", "touchmove") w.

Definition useMoveSensorEffect (env : DroppableEnv) (w : World) : World :=
  if negb (isDragging env) then w
  else subscribe ("mousemove", "touchmove") w.

Definition useMoveEndSensorEffect (env : DroppableEnv) (w : World) : World :=
  if negb (isDragging env) then w
  else subscribe ("mouseup", "touchend") w.

(** [us.forEach(fn => fn())]. *)
Definition runUnsubscribers (us : list Unsubscriber) (w : World) : World :=
  foldl (fun acc u => callUnsubscriber u acc) w us.

(** Lines 409-410: [unsubscribers.forEach(fn => fn())] followed by
    [unsubscribers.splice(0, unsubscribers.length)]. *)
Definition unsubscribeAll (w : World) : World :=
  let w := runUnsubscribers (unsubscribers w) w in
  set_unsubscribers (drop (length (unsubscribers w)) (unsubscribers w)) w.

(** ** [transformNodesByTarget] (lines 549-617) *)

(** What one closure pushed on [fns] has captured: the node and the numbers
    read for it before any style is written. *)
Record ShiftFn : Type := mkShiftFn {
  fnNode : NodeId;
  fnTop : Z;
  fnLeft : Z;
  fnThresholdY : Z;
  fnThresholdX : Z
}.

(** The mutable variables of the pass, with the state they write to.
    [minimalDiff = None] stands for [Infinity]. *)
Record Pass : Type := mkPass {
  passWorld : World;
  nearestNode : option NodeId;
  minimalDiff : option Z
}.

(** The [for] loop of lines 567-611: the dragged node is skipped, every
    other node contributes one closure. *)
Definition shiftFnOf `{Utils} (target : NodeId) (pointer : Pointer)
    (w : World) (node : NodeId) : ShiftFn :=
  let targetRect := getBoundingClientRect w target in
  let rect := getBoundingClientRect w node in
  let t := getThreshold (window w) targetRect pointer in
  mkShiftFn node (safeNumber (top rect)) (safeNumber (left rect))
    (thresholdY t) (thresholdX t).

Definition collectFns `{Utils} (env : DroppableEnv) (target : NodeId)
    (pointer : Pointer) (w : World) : list ShiftFn :=
  foldl
    (fun fns node =>
       if detectIsActiveDraggableNode w node (activeDraggableID env) then fns
       else fns ++ [shiftFnOf target pointer w node])
    [] (nodes env).

Definition shiftStyles (env : DroppableEnv) : list (string * string) :=
  [("transition",
    "transform " +:+ pretty (transitionTimeout env) +:+ "ms "
      +:+ transitionTimingFn env);
   ("transform",
    match direction env with
    | vertical => "translate3d(0px, " +:+ pretty (nodeHeight env) +:+ "px, 0px)"
    | horizontal => "translate3d(" +:+ pretty (nodeWidth env) +:+ "px, 0px, 0px)"
    end)].

(** [diff < minimalDiff]. *)
Definition belowMinimalDiff (diff : Z) (m : option Z) : bool :=
  match m with
  | None => true
  | Some d => diff <? d
  end.

(** One closure of [map[direction]] run by [fns.forEach]. *)
Definition runShiftFn `{Utils} (env : DroppableEnv) (p : Pass) (fn : ShiftFn)
    : Pass :=
  let (threshold, edge) :=
    match direction env with
    | vertical => (fnThresholdY fn, fnTop fn)
    | horizontal => (fnThresholdX fn, fnLeft fn)
    end in
  if threshold <=? edge then
    mkPass (setStyles (fnNode fn) (shiftStyles env) (passWorld p))
      (nearestNode p) (minimalDiff p)
  else
    let w := removeStyles (fnNode fn) ["transform"] (passWorld p) in
    let diff := safeNumber (threshold - edge) in
    if belowMinimalDiff diff (minimalDiff p)
    then mkPass w (Some (fnNode fn)) (Some diff)
    else mkPass w (nearestNode p) (minimalDiff p).

(** The state when [fns.forEach(fn => fn())] has returned. *)
Definition reorderPass `{Utils} (env : DroppableEnv) (target : NodeId)
    (pointer : Pointer) (w : World) : Pass :=
  foldl (runShiftFn env) (mkPass w None None)
    (collectFns env target pointer w).

Definition transformNodesByTarget `{Utils} (env : DroppableEnv)
    (target : NodeId) (pointer : Pointer)
    (onMarkNearestNode : option NodeId -> NodeId -> World -> World)
    (w : World) : World :=
  let p := reorderPass env target pointer w in
  onMarkNearestNode (nearestNode p) target (passWorld p).

(** Lines 155-158: the [onMarkNearestNode] that [Droppable] passes. *)
Definition onMarkNearestNode (nearest : option NodeId) (target : NodeId)
    (w : World) : World :=
  logCall (CallOnDragOver nearest target) (set_nearestNodeRef nearest w).

(** ** [handleDragEnd] (lines 64-103) *)

Fixpoint findIndexFrom {A : Type} (p : A -> bool) (l : list A) (i : Z) : Z :=
  match l with
  | [] => -1
  | x :: l' => if p x then i else findIndexFrom p l' (i + 1)
  end.

(** [Array.prototype.findIndex]. *)
Definition findIndex {A : Type} (p : A -> bool) (l : list A) : Z :=
  findIndexFrom p l 0.

(** The test of [map[direction]] at lines 73-82. *)
Definition landsAfter (d : Direction) (targetRect rect : DOMRect) : bool :=
  match d with
  | vertical => top targetRect + height targetRect >? top rect + height rect
  | horizontal => left targetRect + width targetRect >? left rect + width rect
  end.

(** The loop of lines 68-86. *)
Definition countDestinationIdx (w : World) (d : Direction)
    (targetNode : NodeId) (ns : list NodeId) : Z :=
  let targetRect := getBoundingClientRect w targetNode in
  foldl
    (fun destinationIdx node =>
       if landsAfter d targetRect (getBoundingClientRect w node)
       then destinationIdx + 1 else destinationIdx)
    0 ns.

Definition dragEndDescriptor (env : DroppableEnv) (targetNode : NodeId)
    (w : World) : Descriptor.t :=
  let sourceIdx :=
    findIndex (fun x => detectIsActiveDraggableNode w x (activeDraggableID env))
      (nodes env) in
  let isMoving := bool_decide (sourceIdx = -1) in
  let destinationIdx :=
    countDestinationIdx w (direction env) targetNode (nodes env) in
  Descriptor.mk (activeDraggableID env) (droppableID env)
    (droppableGroupID env) sourceIdx destinationIdx isMoving targetNode.

Definition handleDragEnd (env : DroppableEnv) (targetNode : NodeId)
    (w : World) : World :=
  let d := dragEndDescriptor env targetNode w in
  let w := setTimeout (DragEndCleanupTask env) 0 w in
  logCall (CallOnDragEnd d) w.

(** ** [useIntersectionEffect]: the debounced [handleEvent] (lines 264-285)

    [None] is the [TypeError] of reading a rectangle off [null]. *)
Definition intersectionHandleEvent `{Utils} (env : DroppableEnv) (w : World)
    : option World :=
  if negb (isSomeDragging env) then Some w
  else if negb (isActiveGroup env) then Some w
  else if isActive env then Some w
  else
    let draggableNode :=
      getActiveDraggableNode w (contextID env) (activeDraggableID env) in
    match rootNode env, draggableNode with
    | Some root, Some draggable =>
        let droppableRect := getBoundingClientRect w root in
        let draggableRect := getBoundingClientRect w draggable in
        let draggableRectTop := safeNumber (top draggableRect) in
        let draggableRectLeft := safeNumber (left draggableRect) in
        let droppableRectTop := safeNumber (top droppableRect) in
        let droppableRectLeft := safeNumber (left droppableRect) in
        let droppableRectHeight := safeNumber (height droppableRect) in
        let droppableRectWidth := safeNumber (width droppableRect) in
        let isYaxesIntersected :=
          (draggableRectTop >? droppableRectTop)
          && (draggableRectTop <? droppableRectTop + droppableRectHeight) in
        let isXaxesIntersected :=
          (draggableRectLeft >? droppableRectLeft)
          && (draggableRectLeft <? droppableRectLeft + droppableRectWidth) in
        if isYaxesIntersected && isXaxesIntersected
        then Some (logCall (CallOnIntersect (droppableID env)) w)
        else Some w
    | _, _ => None
    end.

(** ** [applyTargetNodeTransition] (lines 467-534) *)

Definition hasTransform (w : World) (node : NodeId) : bool :=
  negb (bool_decide (transform (getComputedStyle w node) = "none")).

(** [getDroppableContainerOffsets] (lines 474-484), given the container. *)
Definition getDroppableContainerOffsets `{Utils} (w : World)
    (droppableNode : NodeId) : Z * Z :=
  let r := getBoundingClientRect w droppableNode in
  let style := getComputedStyle w droppableNode in
  let droppableTop := safeNumber (top r + paddingTop style) in
  let droppableLeft := safeNumber (left r + paddingLeft style) in
  (droppableTop, droppableLeft).

Definition getVerticalDirectionOffset `{Utils} (w : World)
    (targetNode : NodeId) (nearest : option NodeId) (droppableTop : Z) : Z :=
  match nearest with
  | Some n =>
      safeNumber (bottom (getBoundingClientRect w n)
                  + marginTop (getComputedStyle w targetNode))
  | None => droppableTop
  end.

Definition getHorizontalDirectionOffset `{Utils} (w : World)
    (targetNode : NodeId) (nearest : option NodeId) (droppableTop : Z) : Z :=
  match nearest with
  | Some n =>
      let r := getBoundingClientRect w n in
      safeNumber (left r + width r + marginLeft (getComputedStyle w targetNode))
  | None => droppableTop
  end.

(** [offset] of line 508. *)
Definition settleOffset `{Utils} (d : Direction) (w : World)
    (targetNode : NodeId) (nearest : option NodeId) (droppableTop : Z) : Z :=
  match d with
  | vertical => getVerticalDirectionOffset w targetNode nearest droppableTop
  | horizontal => getHorizontalDirectionOffset w targetNode nearest droppableTop
  end.

(** The [styles] object of lines 511-524, in key order. *)
Definition settleStyles (d : Direction) (timeout offset droppableTop
    droppableLeft : Z) : list (string * string) :=
  let ms := pretty timeout +:+ "ms ease-in-out" in
  [("transition",
    "transform " +:+ ms +:+ ", top " +:+ ms +:+ ", left " +:+ ms);
   ("transform", "translate3D(0, 0, 0)");
   ("top",
    match d with
    | vertical => pretty offset +:+ "px"
    | horizontal => pretty droppableTop +:+ "px"
    end);
   ("left",
    match d with
    | vertical => pretty droppableLeft +:+ "px"
    | horizontal => pretty offset +:+ "px"
    end)].

(** [onComplete] is the [handleDragEnd] of the render (lines 171 and 425).
    [None] is the [TypeError] of measuring a container that was not found. *)
Definition applyTargetNodeTransition `{Utils} (env : DroppableEnv)
    (targetNode : NodeId) (nearest : option NodeId) (w : World)
    : option World :=
  match getActiveDroppableNode w (contextID env) (activeDroppableID env) with
  | None => None
  | Some droppableNode =>
      let (droppableTop, droppableLeft) :=
        getDroppableContainerOffsets w droppableNode in
      let offset :=
        settleOffset (direction env) w targetNode nearest droppableTop in
      if hasTransform w targetNode then
        let w :=
          setStyles targetNode
            (settleStyles (direction env) (transitionTimeout env) offset
               droppableTop droppableLeft) w in
        Some (setTimeout (CompleteTask env targetNode)
                (transitionTimeout env) w)
      else Some (handleDragEnd env targetNode w)
  end.

(** ** [usePlaceholderEffect] (lines 310-336) *)

Definition blankElement : Element :=
  mkElement ∅ (mkRect 0 0 0 0) (mkComputed "none" 0 0 0 0) ∅ None [].

(** [document.createElement('div')]: the new element is [nextNode]. *)
Definition createElement (w : World) : World :=
  set_nextNode (S (nextNode w))
    (set_elements (<[nextNode w := blankElement]> (elements w)) w).

(** [parent.removeChild(child)]. *)
Definition removeChild (parent child : NodeId) (w : World) : World :=
  let els :=
    alter (fun e =>
             set_childNodes
               (List.filter (fun c => negb (bool_decide (c = child)))
                  (childNodes e)) e)
      parent (elements w) in
  set_elements (alter (set_parentElement None) child els) w.

(** [parent.appendChild(child)]: a child that has a parent leaves it. *)
Definition appendChild (parent child : NodeId) (w : World) : World :=
  let w :=
    match parentElement (elements w child) with
    | Some old => removeChild old child w
    | None => w
    end in
  let els :=
    alter (fun e => set_childNodes (childNodes e ++ [child]) e)
      parent (elements w) in
  set_elements (alter (set_parentElement (Some parent)) child els) w.

(** A call of [scope.removePlaceholder], as made by the cleanup of the
    placeholder effect (line 334) and by the timer of [handleDragEnd]
    (line 89); [None] is the [TypeError] of
    [placeholder.parentElement.removeChild] on a detached placeholder. *)
Definition callRemovePlaceholder (w : World) : option World :=
  match removePlaceholder w with
  | NoopRemove => Some w
  | DetachPlaceholder placeholder =>
      match parentElement (elements w placeholder) with
      | None => None
      | Some parent =>
          Some (set_removePlaceholder NoopRemove
                  (removeChild parent placeholder w))
      end
  end.

Definition placeholderStyles (env : DroppableEnv) : list (string * string) :=
  [("width", pretty (nodeWidth env) +:+ "px");
   ("height", pretty (nodeHeight env) +:+ "px");
   ("flex", "0 0 auto")].

(** The effect body (lines 314-332); [None] is the [TypeError] of appending
    to a [null] container. *)
Definition usePlaceholderEffect (env : DroppableEnv) (w : World)
    : option World :=
  if isDragging env then
    let placeholder := nextNode w in
    let w := createElement w in
    let w := set_removePlaceholder (DetachPlaceholder placeholder) w in
    let w := setStyles placeholder (placeholderStyles env) w in
    match rootNode env with
    | None => None
    | Some container =>
        let w := appendChild container placeholder w in
        Some (logCall CallOnInsertPlaceholder w)
    end
  else Some w.

(** ** [useMoveEndSensorEffect]: [handleEvent] (lines 408-441) *)

Definition applyTransition `{Utils} (env : DroppableEnv)
    (nearest : option NodeId) (w : World) : option World :=
  match getActiveDraggableNode w (contextID env) (activeDraggableID env) with
  | None => None
  | Some targetNode => applyTargetNodeTransition env targetNode nearest w
  end.

Definition moveEndHandleEvent `{Utils} (env : DroppableEnv) (w : World)
    : option World :=
  let w := unsubscribeAll w in
  match nearestNodeRef w with
  | Some nearest =>
      if hasTransform w nearest then
        let handleTransitionEnd :=
          HandleTransitionEnd (nextCallback w) env nearest in
        let w := set_nextCallback (S (nextCallback w)) w in
        Some (addEventListener (NodeTarget nearest) "transitionend"
                handleTransitionEnd w)
      else applyTransition env (Some nearest) w
  | None => applyTransition env None w
  end.

(** [handleTransitionEnd] (lines 430-435), the closure with stamp [k]. *)
Definition handleTransitionEnd `{Utils} (k : nat) (env : DroppableEnv)
    (nearest : NodeId) (e : TransitionEvent) (w : World) : option World :=
  if bool_decide (eventTarget e = nearest)
     && bool_decide (propertyName e = "transform")
  then
    let w :=
      removeEventListener (NodeTarget nearest) "transitionend"
        (HandleTransitionEnd k env nearest) w in
    applyTransition env (Some nearest) w
  else Some w.

(** Delivery of a [transitionend] event to the listeners of [current], the
    element the event has reached on its way up from [eventTarget e]. *)
Definition deliverTransitionEnd `{Utils} (current : NodeId)
    (e : TransitionEvent) (w : World) : option World :=
  foldl
    (fun acc l =>
       match acc, listenerCallback l with
       | Some w', HandleTransitionEnd k env nearest =>
           if bool_decide (listenerTarget l = NodeTarget current)
              && bool_decide (listenerType l = "transitionend")
           then handleTransitionEnd k env nearest e w'
           else Some w'
       | _, _ => acc
       end)
    (Some w) (listeners w).

(** ** Timers *)

(** The body of a closure handed to [setTimeout] (lines 88-92 and 528-530). *)
Definition runTask (task : Task) (w : World) : option World :=
  match task with
  | CompleteTask env targetNode => Some (handleDragEnd env targetNode w)
  | DragEndCleanupTask env =>
      match callRemovePlaceholder w with
      | None => None
      | Some w =>
          let w :=
            foldl (fun acc x => removeStyles x ["transition"; "transform"] acc)
              w (nodes env) in
          Some (logCall CallResetState w)
      end
  end.

(** ** Worked boards

    One container (element 0) of context 1 whose items are the elements
    1, 2, ... with the draggable ids ["a"], ["b"], ...; all sizes are whole
    pixels. *)

(** Modelled from the spec: [getActiveDroppableNode] of [./utils], which is
    not among the source files ("find the currently active container
    element", keyed by the identity attributes): the first connected element
    of the context that carries the container's id and is not an item.  On
    whole pixels [safeNumber] has nothing to adjust. *)
Definition boardUtils : Utils := {|
  safeNumber := fun z => z;
  getActiveDroppableNode := fun w contextID activeDroppableID =>
    List.find
      (fun n =>
         bool_decide
           (getAttribute w n CONTEXT_ID_ATTR = Some (pretty contextID))
         && bool_decide
              (getAttribute w n DROPPABLE_ID_ATTR = Some activeDroppableID)
         && bool_decide (getAttribute w n DRAGGABLE_ID_ATTR = None))
      (dndElements w)
|}.

Definition containerElement (r : DOMRect) (cs : ComputedStyle)
    (children : list NodeId) : Element :=
  mkElement {[ CONTEXT_ID_ATTR := "1"; DROPPABLE_ID_ATTR := "list" ]}
    r cs ∅ None children.

Definition itemElement (draggableID : ID) (r : DOMRect) (cs : ComputedStyle)
    : Element :=
  mkElement
    {[ CONTEXT_ID_ATTR := "1"; DROPPABLE_ID_ATTR := "list";
       DRAGGABLE_ID_ATTR := draggableID ]}
    r cs ∅ (Some 0%nat) [].

Definition boardWorld (els : list Element) : World :=
  mkWorld (mkWindow 1000 800)
    (fun n => default blankElement (els !! n))
    (seq 0 (length els)) (length els) [] 0 [] [] NoopRemove None [].

Definition boardEnv (d : Direction) (activeDroppable : ID)
    (ns : list NodeId) : DroppableEnv :=
  mkEnv d "list" "g" 200 "ease-in-out" 0 false true 1 100 40
    "a" activeDroppable "g" (Some 0%nat) ns.

Definition plain : ComputedStyle := mkComputed "none" 0 0 0 0.

Definition moved : ComputedStyle :=
  mkComputed "matrix(1, 0, 0, 1, 0, 40)" 0 0 0 0.

(** A vertical list of three items of height 40 at release: item ["a"],
    first in the list, has been settled below ["b"] (which moved up to the
    container's top when ["a"] was lifted), and ["c"] is shifted down by the
    dragged height. *)
Definition dropWorld : World :=
  boardWorld
    [containerElement (mkRect 0 0 100 160) plain [1; 2; 3]%nat;
     itemElement "a" (mkRect 40 0 100 40) plain;
     itemElement "b" (mkRect 0 0 100 40) plain;
     itemElement "c" (mkRect 80 0 100 40) moved].

Definition dropEnv : DroppableEnv := boardEnv vertical "list" [1; 2; 3]%nat.

(** A horizontal container at (top 10, left 20) with paddings 5 and 7 whose
    only item is the dragged one. *)
Definition rowWorld : World :=
  boardWorld
    [containerElement (mkRect 10 20 300 60) (mkComputed "none" 0 0 5 7)
       [1%nat];
     itemElement "a" (mkRect 200 150 100 40) moved].

Definition rowEnv : DroppableEnv := boardEnv horizontal "list" [1%nat].

(** A second container (element 0) that is not the active one, and the
    dragged item (element 1) of another container hovering over it. *)
Definition hoverWorld (dragged : DOMRect) : World :=
  boardWorld
    [containerElement (mkRect 10 10 200 200) plain [];
     mkElement
       {[ CONTEXT_ID_ATTR := "1"; DROPPABLE_ID_ATTR := "other";
          DRAGGABLE_ID_ATTR := "a" ]}
       dragged moved ∅ None []].

Definition hoverEnv : DroppableEnv := boardEnv vertical "other" [].

(** Whether the centre of [inner] lies strictly inside [outer] on both axes
    (coordinates doubled, to stay in whole numbers). *)
Definition centreInside (inner outer : DOMRect) : bool :=
  (2 * top outer <? 2 * top inner + height inner)
  && (2 * top inner + height inner <? 2 * (top outer + height outer))
  && (2 * left outer <? 2 * left inner + width inner)
  && (2 * left inner + width inner <? 2 * (left outer + width outer)).

(** The test of lines 277-280 on rectangles: the top-left corner of [inner]
    strictly inside [outer]. *)
Definition cornerInside `{Utils} (inner outer : DOMRect) : bool :=
  (safeNumber (top inner) >? safeNumber (top outer))
  && (safeNumber (top inner)
      <? safeNumber (top outer) + safeNumber (height outer))
  && (safeNumber (left inner) >? safeNumber (left outer))
  && (safeNumber (left inner)
      <? safeNumber (left outer) + safeNumber (width outer)).

(** The vertical list during the drag: ["a"] is lifted, ["b"], ["c"] and
    ["d"] sit at tops 0, 50 and 120, and the element under the pointer
    (the dragged one) has its top at 60. *)
Definition dragWorld : World :=
  boardWorld
    [containerElement (mkRect 0 0 100 200) plain [1; 2; 3; 4]%nat;
     itemElement "a" (mkRect 60 0 100 40) moved;
     itemElement "b" (mkRect 0 0 100 40) plain;
     itemElement "c" (mkRect 50 0 100 40) moved;
     itemElement "d" (mkRect 120 0 100 40) plain].

Definition dragEnv : DroppableEnv :=
  boardEnv vertical "list" [1; 2; 3; 4]%nat.

(** The three sensor effects of one dragging render, mounted in hook order
    (lines 116, 144, 162). *)
Definition mountSensors (env : DroppableEnv) (w : World) : World :=
  useMoveEndSensorEffect env (useMoveSensorEffect env
    (useIntersectionEffect env w)).

(** The list of [dragWorld] at release: the sensors are mounted and the
    last pass has recorded ["c"], which still carries a transform, as the
    nearest node. *)
Definition releaseWorld : World :=
  set_nearestNodeRef (Some 3%nat) (mountSensors dragEnv dragWorld).

(** The trailing edge of a rectangle on an axis. *)
Definition trailingEdge (d : Direction) (r : DOMRect) : Z :=
  match d with
  | vertical => top r + height r
  | horizontal => left r + width r
  end.

(** The leading edge of a node on an axis, as the pass reads it. *)
Definition leadingEdge `{Utils} (d : Direction) (w : World) (n : NodeId) : Z :=
  match d with
  | vertical => safeNumber (top (getBoundingClientRect w n))
  | horizontal => safeNumber (left (getBoundingClientRect w n))
  end.

(** The threshold of a pass on its axis. *)
Definition axisThreshold (d : Direction) (w : World) (target : NodeId)
    (pointer : Pointer) : Z :=
  let t := getThreshold (window w) (getBoundingClientRect w target) pointer in
  match d with
  | vertical => thresholdY t
  | horizontal => thresholdX t
  end.

(** The signed gap between the threshold and a node's leading edge. *)
Definition gapOf `{Utils} (d : Direction) (w : World) (target : NodeId)
    (pointer : Pointer) (n : NodeId) : Z :=
  safeNumber (axisThreshold d w target pointer - leadingEdge d w n).

(** The loop over the nodes and the later [forEach] over the closures, taken
    as one step per node. *)
Definition passStep `{Utils} (env : DroppableEnv) (target : NodeId)
    (pointer : Pointer) (w : World) (p : Pass) (node : NodeId) : Pass :=
  if detectIsActiveDraggableNode w node (activeDraggableID env) then p
  else runShiftFn env p (shiftFnOf target pointer w node).

(** What a pass does to the style of a node that is not the dragged one. *)
Definition restyle `{Utils} (env : DroppableEnv) (target : NodeId)
    (pointer : Pointer) (w : World) (n : NodeId) (e : Element) : Element :=
  if axisThreshold (direction env) w target pointer
     <=? leadingEdge (direction env) w n
  then set_style (setStyleProperties (shiftStyles env) (style e)) e
  else set_style (removeStyleProperties ["transform"] (style e)) e.

(** Every document listener has its [unsubscribe] on the registry. *)
Definition registered (w : World) : Prop :=
  forall l, l ∈ listeners w -> listenerTarget l = DocumentTarget ->
    exists u, u ∈ unsubscribers w
      /\ unsubHandler u = listenerCallback l
      /\ (listenerType l = (unsubTypes u).1
          \/ listenerType l = (unsubTypes u).2).
(** ** Further functions of [src/dom.ts] *)

(** [node.style.setProperty(name, value)] and
    [node.style.removeProperty(name)]. *)
Definition setProperty (node : NodeId) (name value : string) (w : World)
    : World :=
  set_elements
    (alter (fun e => set_style (<[name := value]> (style e)) e)
       node (elements w)) w.

Definition removeProperty (node : NodeId) (name : string) (w : World)
    : World :=
  set_elements
    (alter (fun e => set_style (delete name (style e)) e) node (elements w)) w.

(** The closure [blockScroll] returns (lines 110-118): it has captured the
    node and the value of [overflow] read before the write. *)
Record RestoreScroll : Type := mkRestoreScroll {
  restoreNode : NodeId;
  overflowValue : string
}.

(** [blockScroll] (lines 105-119). *)
Definition blockScroll (node : NodeId) (w : World) : World * RestoreScroll :=
  let overflowValue := getPropertyValue "overflow" (style (elements w node)) in
  (setProperty node "overflow" "hidden" w, mkRestoreScroll node overflowValue).

(** A call of the closure: a non-empty captured value is written back, an
    empty one removes the property. *)
Definition callRestoreScroll (r : RestoreScroll) (w : World) : World :=
  if decide (overflowValue r = "") then removeProperty (restoreNode r)
                                          "overflow" w
  else setProperty (restoreNode r) "overflow" (overflowValue r) w.

(** The entries of [getComputedStyle] that the scroll-container lookup
    reads; they are kept beside the state, as a function of the element. *)
Record ScrollStyle : Type := mkScrollStyle {
  position : string;
  overflow : string;
  overflowY : string;
  overflowX : string
}.

(** Whether [pattern] occurs in [s]. *)
Fixpoint includes (pattern s : string) : bool :=
  String.prefix pattern s
  || match s with
     | EmptyString => false
     | String _ s' => includes pattern s'
     end.

(** [/(auto|scroll)/.test(style.overflow + style.overflowY + style.overflowX)]. *)
Definition overflowRegexTest (st : ScrollStyle) : bool :=
  let text := overflow st +:+ overflowY st +:+ overflowX st in
  includes "auto" text || includes "scroll" text.

(** The loop of lines 55-63, [fuel] iterations of it: [None] when they do
    not suffice, [Some None] when the loop ends at an element without
    parent, [Some (Some p)] when it returns [p]. *)
Fixpoint scrollParentLoop (fuel : nat) (w : World)
    (layout : NodeId -> ScrollStyle) (excludeStaticParent : bool)
    (parent : NodeId) : option (option NodeId) :=
  match fuel with
  | O => None
  | S fuel' =>
      match parentElement (elements w parent) with
      | None => Some None
      | Some p =>
          if excludeStaticParent
             && bool_decide (position (layout p) = "static")
          then scrollParentLoop fuel' w layout excludeStaticParent p
          else if overflowRegexTest (layout p) then Some (Some p)
          else scrollParentLoop fuel' w layout excludeStaticParent p
      end
  end.

(** [getScrollContainer] (lines 48-66); [body] is [document.body]. *)
Definition getScrollContainer (fuel : nat) (w : World)
    (layout : NodeId -> ScrollStyle) (body : NodeId) (node : NodeId)
    : option NodeId :=
  let excludeStaticParent :=
    bool_decide (position (layout node) = "absolute") in
  if bool_decide (position (layout node) = "fixed") then Some body
  else
    match scrollParentLoop fuel w layout excludeStaticParent node with
    | None => None
    | Some (Some p) => Some p
    | Some None => Some body
    end.

(** [getScrollContainerFromContainer] (lines 68-77). *)
Definition getScrollContainerFromContainer (fuel : nat) (w : World)
    (layout : NodeId -> ScrollStyle) (body : NodeId) (node : NodeId)
    : option NodeId :=
  if overflowRegexTest (layout node) then Some node
  else getScrollContainer fuel w layout body node.

(** The chain of [parentElement] links from an element up to the one that
    has no parent. *)
Inductive ancestors (w : World) : NodeId -> list NodeId -> Prop :=
| ancestors_top (n : NodeId) :
    parentElement (elements w n) = None -> ancestors w n []
| ancestors_up (n p : NodeId) (chain : list NodeId) :
    parentElement (elements w n) = Some p -> ancestors w p chain ->
    ancestors w n (p :: chain).

(** The ancestors the loop of [getScrollContainer] can return. *)
Definition scrollCandidate (layout : NodeId -> ScrollStyle)
    (excludeStaticParent : bool) (p : NodeId) : bool :=
  negb (excludeStaticParent && bool_decide (position (layout p) = "static"))
  && overflowRegexTest (layout p).

(** ** [useMoveSensorEffect]: the debounced [handleEvent] (lines 350-364) *)

(** The two kinds of event the handler is registered for, with the fields
    it reads. *)
Inductive MoveEvent : Type :=
| MouseEvent (target : NodeId) (x y : Z)
| TouchEvent (target : NodeId) (touches : list Pointer).

(** [None] is the [TypeError] of reading [e.touches[0].clientX] when there
    is no touch point. *)
Definition moveSensorHandleEvent `{Utils} (env : DroppableEnv) (e : MoveEvent)
    (w : World) : option World :=
  match e with
  | MouseEvent target x y =>
      Some (transformNodesByTarget env target (mkPointer x y)
              onMarkNearestNode w)
  | TouchEvent target touches =>
      match touches with
      | [] => None
      | touch :: _ =>
          Some (transformNodesByTarget env target
                  (mkPointer (clientX touch) (clientY touch))
                  onMarkNearestNode w)
      end
  end.

(** ** Notions used by the further facts *)

(** The [forEach] of line 90 in the timer of [handleDragEnd]. *)
Definition clearShiftStyles (ns : list NodeId) (w : World) : World :=
  foldl (fun acc x => removeStyles x ["transition"; "transform"] acc) w ns.

(** No listener of the state carries a stamp that is still to be issued. *)
Definition freshCallbacks (w : World) : Prop :=
  forall l, l ∈ listeners w ->
    match listenerCallback l with
    | SensorHandler k => (k < nextCallback w)%nat
    | HandleTransitionEnd k _ _ => (k < nextCallback w)%nat
    end.

(** Two states that agree on everything but their elements. *)
Definition onlyElementsDiffer (w w' : World) : Prop :=
  window w' = window w /\ dndElements w' = dndElements w
  /\ nextNode w' = nextNode w /\ listeners w' = listeners w
  /\ nextCallback w' = nextCallback w /\ unsubscribers w' = unsubscribers w
  /\ timers w' = timers w /\ removePlaceholder w' = removePlaceholder w
  /\ nearestNodeRef w' = nearestNodeRef w /\ calls w' = calls w.

(** The board of [dropEnv] with the container disabled. *)
Definition disabledEnv : DroppableEnv :=
  mkEnv vertical "list" "g" 200 "ease-in-out" 0 true true 1 100 40
    "a" "list" "g" (Some 0%nat) [1; 2; 3]%nat.

(** [releaseWorld] after the release: the handler waits for the transition
    of the nearest node. *)
Definition waitingWorld : World :=
  default releaseWorld (moveEndHandleEvent (H:=boardUtils) dragEnv releaseWorld).

(** A page for the scroll-container lookup: the body (element 9) holds a
    scrolling panel (element 8), which holds the board's container. *)
Definition pageWorld : World :=
  set_elements
    (<[0%nat := set_parentElement (Some 8%nat)
                  (containerElement (mkRect 0 0 100 160) plain [1; 2; 3]%nat)]>
       (<[8%nat := set_parentElement (Some 9%nat) blankElement]>
          (elements dropWorld)))
    dropWorld.

Definition pageLayout (n : NodeId) : ScrollStyle :=
  if decide (n = 8%nat) then mkScrollStyle "relative" "hidden" "auto" "hidden"
  else mkScrollStyle "static" "visible" "visible" "visible".

(** ** Notions used by the facts about the release and the lookups *)

(** Whether a computed [transform] value is the identity transformation:
    [none], or the identity matrix in one of the two forms in which
    [getComputedStyle] serialises a transform. *)
Definition isIdentityTransform (value : string) : bool :=
  bool_decide (value = "none")
  || bool_decide (value = "matrix(1, 0, 0, 1, 0, 0)")
  || bool_decide
       (value = "matrix3d(1, 0, 0, 0, 0, 1, 0, 0, 0, 0, 1, 0, 0, 0, 0, 1)").

(** The computed style of an element that declares a transform which moves
    nothing, such as [translate3d(0px, 0px, 0px)]. *)
Definition rested : ComputedStyle :=
  mkComputed "matrix(1, 0, 0, 1, 0, 0)" 0 0 0 0.

(** The list of [dragWorld] at release when the nearest node ["c"] is in
    place: its transform computes to the identity matrix. *)
Definition restedWorld : World :=
  set_nearestNodeRef (Some 3%nat)
    (mountSensors dragEnv
       (boardWorld
          [containerElement (mkRect 0 0 100 200) plain [1; 2; 3; 4]%nat;
           itemElement "a" (mkRect 60 0 100 40) moved;
           itemElement "b" (mkRect 0 0 100 40) plain;
           itemElement "c" (mkRect 50 0 100 40) rested;
           itemElement "d" (mkRect 120 0 100 40) plain])).

(** The list of [dragWorld] with a dragged element ["a"] whose transform
    moves nothing: it computes to the identity matrix. *)
Definition restedTargetWorld : World :=
  boardWorld
    [containerElement (mkRect 0 0 100 200) plain [1; 2; 3; 4]%nat;
     itemElement "a" (mkRect 60 0 100 40) rested;
     itemElement "b" (mkRect 0 0 100 40) plain;
     itemElement "c" (mkRect 50 0 100 40) moved;
     itemElement "d" (mkRect 120 0 100 40) plain].

(** What the settle step has done when it has taken the state [w0] to [w']
    for the dragged element [targetNode].  With a transform on the dragged
    element the transform is reset, [top] and [left] are declared and the
    completion waits on a timer of the transition duration; without one,
    [onDragEnd] has been called with the descriptor and the cleanup waits
    on a zero-delay timer.  Either way no listener is added or removed. *)
Definition settledFrom (env : DroppableEnv) (targetNode : NodeId)
    (w0 w' : World) : Prop :=
  listeners w' = listeners w0
  /\ unsubscribers w' = unsubscribers w0
  /\ if hasTransform w0 targetNode
     then style (elements w' targetNode) !! "transform"
          = Some "translate3D(0, 0, 0)"
          /\ is_Some (style (elements w' targetNode) !! "top")
          /\ is_Some (style (elements w' targetNode) !! "left")
          /\ timers w'
             = timers w0 ++ [(transitionTimeout env, CompleteTask env targetNode)]
          /\ calls w' = calls w0
     else elements w' = elements w0
          /\ timers w' = timers w0 ++ [(0, DragEndCleanupTask env)]
          /\ calls w'
             = calls w0 ++ [CallOnDragEnd (dragEndDescriptor env targetNode w0)].

(** Whether a quoted attribute selector matches a text literally: the text
    holds no double quote, backslash, line break or null character, which a
    CSS string reads differently or not at all. *)
Definition selectorLiteral (text : string) : bool :=
  forallb
    (fun c =>
       negb (bool_decide (Ascii.nat_of_ascii c ∈ [0; 10; 12; 13; 34; 92]%nat)))
    (String.list_ascii_of_string text).

(** Whether an inline style is free of declarations that share storage with
    one of the given properties: it declares neither [all] nor any other
    property whose name mentions one of them (a longhand such as
    [overflow-x] or [transition-duration], or a prefixed alias). *)
Definition declaresApart (shorthands : list string) (s : gmap string string)
    : Prop :=
  s !! "all" = None
  /\ forall k name,
       name ∈ shorthands -> k <> name -> includes name k = true ->
       s !! k = None.

(** ** Facts about [src/dom.ts] *)

(** The doubled comparison of [getThreshold] is the source's
    [pointer.clientY < window.innerHeight / 2] read over the rationals. *)
Lemma half_viewport_test (c extent : Z) :
  (inject_Z c < inject_Z extent / 2)%Q <-> 2 * c < extent.
Proof.
  unfold Qlt, Qdiv, Qmult, Qinv, inject_Z. simpl. lia.
Qed.

(** C9. [getThreshold] returns, per axis, the rectangle's leading edge when
    it is positive, else 0 when the pointer is in the first half of the
    viewport on that axis and the viewport extent otherwise; for the
    rectangle at (-5, -5), the pointer at (10, 10) and a 1000 x 800 viewport
    both thresholds are 0. *)
Theorem getThreshold_spec :
  (forall (win : Window) (rect : DOMRect) (pointer : Pointer),
      thresholdY (getThreshold win rect pointer) =
        (if decide (0 < top rect) then top rect
         else if decide (2 * clientY pointer < innerHeight win) then 0
         else innerHeight win)
      /\ thresholdX (getThreshold win rect pointer) =
        (if decide (0 < left rect) then left rect
         else if decide (2 * clientX pointer < innerWidth win) then 0
         else innerWidth win))
  /\ getThreshold (mkWindow 1000 800) (mkRect (-5) (-5) 0 0) (mkPointer 10 10)
     = (0, 0).
Proof.
  split; [| reflexivity].
  intros win rect pointer. unfold getThreshold, thresholdY, thresholdX. simpl.
  split.
  - destruct (Z.ltb_spec 0 (top rect)); case_decide; try lia; try done.
    destruct (Z.ltb_spec (2 * clientY pointer) (innerHeight win));
      case_decide; try lia; done.
  - destruct (Z.ltb_spec 0 (left rect)); case_decide; try lia; try done.
    destruct (Z.ltb_spec (2 * clientX pointer) (innerWidth win));
      case_decide; try lia; done.
Qed.

(** ** Facts about [handleDragEnd] *)

Lemma findIndexFrom_none {A : Type} (p : A -> bool) (l : list A) (i : Z) :
  (forall x, x ∈ l -> p x = false) -> findIndexFrom p l i = -1.
Proof.
  revert i. induction l as [|x l IH]; intros i Hall; simpl; [done|].
  rewrite (Hall x) by apply list_elem_of_here.
  apply IH. intros y Hy. apply Hall. by apply list_elem_of_further.
Qed.

Lemma findIndexFrom_first {A : Type} (p : A -> bool) (l : list A) (i : Z)
    (k : nat) (x : A) :
  l !! k = Some x -> p x = true ->
  (forall (j : nat) (y : A), (j < k)%nat -> l !! j = Some y -> p y = false) ->
  findIndexFrom p l i = i + Z.of_nat k.
Proof.
  revert i k. induction l as [|a l IH]; intros i k Hk Hx Hbefore; [done|].
  destruct k as [|k]; simpl in *.
  - injection Hk as ->. rewrite Hx. lia.
  - rewrite (Hbefore 0%nat a) by (simpl; first [lia | done]).
    rewrite (IH (i + 1) k Hk Hx); [lia|].
    intros j y Hj Hy. apply (Hbefore (S j) y); [lia | done].
Qed.

Lemma findIndexFrom_found {A : Type} (p : A -> bool) (l : list A) (i : Z) :
  0 <= i -> findIndexFrom p l i = -1 -> forall x, x ∈ l -> p x = false.
Proof.
  revert i. induction l as [|a l IH]; intros i Hi Hres x Hin.
  - by apply elem_of_nil in Hin.
  - simpl in Hres. destruct (p a) eqn:Ha; [lia|].
    apply elem_of_cons in Hin as [-> | Hin]; [done|].
    apply (IH (i + 1)); [lia | done | done].
Qed.

Lemma landsAfter_trailingEdge (d : Direction) (targetRect rect : DOMRect) :
  landsAfter d targetRect rect = true
  <-> trailingEdge d rect < trailingEdge d targetRect.
Proof.
  unfold landsAfter, trailingEdge. destruct d; rewrite Z.gtb_ltb, Z.ltb_lt; lia.
Qed.

Lemma countDestinationIdx_from (w : World) (d : Direction) (targetNode : NodeId)
    (ns : list NodeId) (start : Z) :
  foldl
    (fun destinationIdx node =>
       if landsAfter d (getBoundingClientRect w targetNode)
            (getBoundingClientRect w node)
       then destinationIdx + 1 else destinationIdx)
    start ns
  = start
    + Z.of_nat
        (length
           (filter
              (fun n =>
                 trailingEdge d (getBoundingClientRect w n)
                 < trailingEdge d (getBoundingClientRect w targetNode))
              ns)).
Proof.
  revert start. induction ns as [|n ns IH]; intros start; simpl; [lia|].
  rewrite IH, filter_cons.
  destruct (landsAfter _ _ _) eqn:E; case_decide as Hlt; simpl length; try lia.
  - apply landsAfter_trailingEdge in E. lia.
  - apply landsAfter_trailingEdge in Hlt. congruence.
Qed.

Lemma countDestinationIdx_count (w : World) (d : Direction)
    (targetNode : NodeId) (ns : list NodeId) :
  countDestinationIdx w d targetNode ns
  = Z.of_nat
      (length
         (filter
            (fun n =>
               trailingEdge d (getBoundingClientRect w n)
               < trailingEdge d (getBoundingClientRect w targetNode))
            ns)).
Proof. unfold countDestinationIdx. by rewrite countDestinationIdx_from. Qed.

(** The node list of [dropEnv] is what [getItemNodes] finds. *)
Example dropWorld_items :
  getItemNodes dropWorld (contextID dropEnv) (droppableID dropEnv)
  = nodes dropEnv.
Proof. reflexivity. Qed.

(** The geometry of [dropWorld] is the one the settle step produces: the
    dragged item's top is the offset computed from its nearest node ["b"]. *)
Example dropWorld_settled :
  settleOffset (H:=boardUtils) vertical dropWorld 1%nat (Some 2%nat) 0
  = top (getBoundingClientRect dropWorld 1%nat).
Proof. reflexivity. Qed.

(** C4. The descriptor handed to [onDragEnd]: [sourceIdx] is the index of
    the dragged item in the node list and -1 when it is absent, [isMoving]
    holds exactly when [sourceIdx] is -1, [destinationIdx] is the number of
    scanned nodes whose trailing edge on the axis lies before the dropped
    item's; on the three-item vertical list where item 0 lands after the
    item originally at index 1 the descriptor has [sourceIdx = 0],
    [destinationIdx = 1] and [isMoving = false]. *)
Theorem handleDragEnd_descriptor (env : DroppableEnv) (targetNode : NodeId)
    (w : World) :
  let isDragged x := detectIsActiveDraggableNode w x (activeDraggableID env) in
  let edge n := trailingEdge (direction env) (getBoundingClientRect w n) in
  let d := dragEndDescriptor env targetNode w in
  calls (handleDragEnd env targetNode w) = calls w ++ [CallOnDragEnd d]
  /\ (forall (i : nat) (n : NodeId),
        nodes env !! i = Some n -> isDragged n = true ->
        (forall (j : nat) (m : NodeId),
            (j < i)%nat -> nodes env !! j = Some m -> isDragged m = false) ->
        Descriptor.sourceIdx d = Z.of_nat i)
  /\ ((forall n, n ∈ nodes env -> isDragged n = false)
      <-> Descriptor.sourceIdx d = -1)
  /\ (Descriptor.isMoving d = true <-> Descriptor.sourceIdx d = -1)
  /\ Descriptor.destinationIdx d
     = Z.of_nat
         (length (filter (fun n => edge n < edge targetNode) (nodes env)))
  /\ (forall a b c : NodeId,
        nodes env = [a; b; c] -> targetNode = a -> isDragged a = true ->
        edge b < edge a -> edge a <= edge c ->
        Descriptor.sourceIdx d = 0 /\ Descriptor.destinationIdx d = 1
        /\ Descriptor.isMoving d = false)
  /\ dragEndDescriptor dropEnv 1%nat dropWorld
     = Descriptor.mk "a" "list" "g" 0 1 false 1%nat.
Proof.
  intros isDragged edge d.
  assert (Descriptor.destinationIdx d
          = Z.of_nat
              (length (filter (fun n => edge n < edge targetNode) (nodes env))))
    as Hcount by apply countDestinationIdx_count.
  split; [done|]. split; [|split; [|split; [|split; [done|split; [|done]]]]].
  4: { intros a b c Hnodes -> Ha Hb Hc.
       assert (Descriptor.sourceIdx d = 0) as Hsource.
       { change (findIndexFrom isDragged (nodes env) 0 = 0).
         rewrite Hnodes. simpl. by rewrite Ha. }
       split; [done|]. split.
       - rewrite Hcount, Hnodes, !filter_cons, filter_nil.
         repeat case_decide; simpl; lia.
       - change (bool_decide (Descriptor.sourceIdx d = -1) = false).
         rewrite Hsource. by apply bool_decide_eq_false. }
  all: repeat split.
  - intros i n Hi Hn Hbefore.
    change (findIndexFrom isDragged (nodes env) 0 = Z.of_nat i).
    by rewrite (findIndexFrom_first isDragged _ 0 i n Hi Hn Hbefore).
  - intros Hall.
    change (findIndexFrom isDragged (nodes env) 0 = -1).
    by apply findIndexFrom_none.
  - intros Hres n Hn.
    change (findIndexFrom isDragged (nodes env) 0 = -1) in Hres.
    by apply (findIndexFrom_found isDragged (nodes env) 0).
  - subst d. simpl. by intros ?%bool_decide_eq_true.
  - subst d. simpl. intros ->. by apply bool_decide_eq_true.
Qed.

(** C10. The comparison of trailing edges is strict: a scanned node whose
    trailing edge equals the dropped item's does not increment the
    destination index, and so the dragged node itself, when it is among the
    scanned nodes, never contributes to its own destination index. *)
Theorem destinationIdx_strict (env : DroppableEnv) (targetNode : NodeId)
    (w : World) (l1 l2 : list NodeId) (n : NodeId)
    (Hedge : trailingEdge (direction env) (getBoundingClientRect w n)
             = trailingEdge (direction env)
                 (getBoundingClientRect w targetNode)) :
  Descriptor.destinationIdx (dragEndDescriptor env targetNode w)
  = countDestinationIdx w (direction env) targetNode (nodes env)
  /\ countDestinationIdx w (direction env) targetNode (l1 ++ n :: l2)
     = countDestinationIdx w (direction env) targetNode (l1 ++ l2)
  /\ countDestinationIdx w (direction env) targetNode (l1 ++ targetNode :: l2)
     = countDestinationIdx w (direction env) targetNode (l1 ++ l2).
Proof.
  split; [done|].
  rewrite !countDestinationIdx_count, !filter_app, !filter_cons.
  split; case_decide; try lia; done.
Qed.

Lemma destinationIdx_strict_witness :
  countDestinationIdx dropWorld vertical 1%nat ([] ++ 1%nat :: [2; 3]%nat)
  = countDestinationIdx dropWorld vertical 1%nat ([] ++ [2; 3]%nat).
Proof.
  exact (proj1 (proj2
    (destinationIdx_strict dropEnv 1%nat dropWorld [] [2; 3]%nat 1%nat
       eq_refl))).
Defined.

(** ** Facts about style blocks *)

Ltac style_lookup :=
  repeat first
    [ rewrite lookup_insert_eq
    | rewrite lookup_insert_ne by discriminate ].

Lemma setStyles_elements_same (node : NodeId) (block : list (string * string))
    (w : World) :
  style (elements (setStyles node block w) node)
  = setStyleProperties block (style (elements w node)).
Proof. unfold setStyles. simpl. by rewrite fn_lookup_alter. Qed.

Lemma removeStyleProperties_transform (s : gmap string string) :
  getPropertyValue "transform" (removeStyleProperties ["transform"] s) = ""
  /\ forall k, k <> "transform" ->
       removeStyleProperties ["transform"] s !! k = s !! k.
Proof.
  unfold removeStyleProperties. simpl. case_decide as E; split; try done.
  - unfold getPropertyValue. by rewrite lookup_delete_eq.
  - intros k Hk. by rewrite lookup_delete_ne.
Qed.

(** ** Facts about [applyTargetNodeTransition] *)

(** C1 (the code departs from the claim on the horizontal axis).  With no
    nearest node the vertical offset is the container's top edge plus its
    top padding, as claimed; the horizontal offset is that same top value,
    where the claim asks for the left edge plus the left padding.  On
    [rowWorld] (top 10 + 5, left 20 + 7) the horizontal offset is 15, not
    27, and the settle step writes [left: 15px]. *)
Theorem settleOffset_without_nearest :
  (forall (U : Utils) (w : World) (targetNode droppableNode : NodeId),
      let r := getBoundingClientRect w droppableNode in
      let cs := getComputedStyle w droppableNode in
      let offsets := getDroppableContainerOffsets w droppableNode in
      settleOffset vertical w targetNode None offsets.1
      = safeNumber (top r + paddingTop cs)
      /\ settleOffset horizontal w targetNode None offsets.1
         = safeNumber (top r + paddingTop cs))
  /\ getActiveDroppableNode (Utils:=boardUtils) rowWorld 1 "list" = Some 0%nat
  /\ getDroppableContainerOffsets (H:=boardUtils) rowWorld 0%nat = (15, 27)
  /\ settleOffset (H:=boardUtils) horizontal rowWorld 1%nat None 15 = 15
  /\ match applyTargetNodeTransition (H:=boardUtils) rowEnv 1%nat None
             rowWorld with
     | Some w' => style (elements w' 1%nat) !! "left"
     | None => None
     end = Some "15px".
Proof.
  split; [intros U w targetNode droppableNode; split; reflexivity|].
  repeat split; vm_compute; reflexivity.
Qed.

(** C8, amended.  When the computed [transform] of the dragged element is
    anything but ["none"] (an identity matrix included, the test of line
    470), the settle step writes a transition on transform, top and left,
    resets the transform to the identity translation and sets top and left
    to the destination; the completion callback is not run but handed to a
    timer of the configured duration, and no event listener is involved.
    When it is ["none"] the completion callback runs synchronously on the
    untouched state: no style is written.  The destination is spelled out.
    Across the axis: the container's padded edge.  Along the axis, with a
    nearest node: its trailing edge plus the dragged element's leading
    margin.  Along the vertical axis with no nearest node: the container's
    padded top.  Along the horizontal axis with no nearest node nothing is
    said of [left] (that case is the subject of C1).  On [dragWorld],
    settling ["a"] after ["c"] declares [top: 90px] and [left: 0px]. *)
Theorem applyTargetNodeTransition_settles :
  (forall (U : Utils) (env : DroppableEnv) (targetNode : NodeId)
      (nearest : option NodeId) (w : World) (droppableNode : NodeId),
      getActiveDroppableNode w (contextID env) (activeDroppableID env)
      = Some droppableNode ->
      let r := getBoundingClientRect w droppableNode in
      let cs := getComputedStyle w droppableNode in
      let paddedTop := safeNumber (top r + paddingTop cs) in
      let paddedLeft := safeNumber (left r + paddingLeft cs) in
      let margins := getComputedStyle w targetNode in
      let ms := pretty (transitionTimeout env) +:+ "ms ease-in-out" in
      (hasTransform w targetNode = true ->
       exists w',
         applyTargetNodeTransition env targetNode nearest w = Some w'
         /\ style (elements w' targetNode) !! "transition"
            = Some ("transform " +:+ ms +:+ ", top " +:+ ms +:+ ", left " +:+ ms)
         /\ style (elements w' targetNode) !! "transform"
            = Some "translate3D(0, 0, 0)"
         /\ match direction env, nearest with
            | vertical, Some n =>
                style (elements w' targetNode) !! "top"
                = Some (pretty (safeNumber (bottom (getBoundingClientRect w n)
                                            + marginTop margins)) +:+ "px")
                /\ style (elements w' targetNode) !! "left"
                   = Some (pretty paddedLeft +:+ "px")
            | vertical, None =>
                style (elements w' targetNode) !! "top"
                = Some (pretty paddedTop +:+ "px")
                /\ style (elements w' targetNode) !! "left"
                   = Some (pretty paddedLeft +:+ "px")
            | horizontal, Some n =>
                style (elements w' targetNode) !! "top"
                = Some (pretty paddedTop +:+ "px")
                /\ style (elements w' targetNode) !! "left"
                   = Some (pretty (safeNumber
                                     (left (getBoundingClientRect w n)
                                      + width (getBoundingClientRect w n)
                                      + marginLeft margins)) +:+ "px")
            | horizontal, None =>
                style (elements w' targetNode) !! "top"
                = Some (pretty paddedTop +:+ "px")
            end
         /\ timers w'
            = timers w ++ [(transitionTimeout env, CompleteTask env targetNode)]
         /\ calls w' = calls w
         /\ listeners w' = listeners w
         /\ forall w'', runTask (CompleteTask env targetNode) w''
                        = Some (handleDragEnd env targetNode w''))
      /\ (hasTransform w targetNode = false ->
          applyTargetNodeTransition env targetNode nearest w
          = Some (handleDragEnd env targetNode w)
          /\ elements (handleDragEnd env targetNode w) = elements w
          /\ listeners (handleDragEnd env targetNode w) = listeners w
          /\ timers (handleDragEnd env targetNode w)
             = timers w ++ [(0, DragEndCleanupTask env)]
          /\ calls (handleDragEnd env targetNode w)
             = calls w ++ [CallOnDragEnd (dragEndDescriptor env targetNode w)]))
  /\ match applyTargetNodeTransition (H:=boardUtils) dragEnv 1%nat
             (Some 3%nat) dragWorld with
     | Some w' =>
         (style (elements w' 1%nat) !! "top", style (elements w' 1%nat) !! "left")
     | None => (None, None)
     end = (Some "90px", Some "0px").
Proof.
  split; [|vm_compute; reflexivity].
  intros U env targetNode nearest w droppableNode Hfound r cs paddedTop
    paddedLeft margins ms.
  unfold applyTargetNodeTransition. rewrite Hfound.
  unfold getDroppableContainerOffsets. fold r cs paddedTop paddedLeft.
  split; intros Htransform; rewrite Htransform.
  - eexists. split; [reflexivity|].
    change (elements (setTimeout ?t ?d ?w0)) with (elements w0).
    rewrite setStyles_elements_same. unfold settleStyles, setStyleProperties.
    simpl foldl. unfold namesMap. simpl.
    unfold settleOffset, getVerticalDirectionOffset,
      getHorizontalDirectionOffset.
    destruct (direction env), nearest as [n|];
      repeat split; style_lookup; done.
  - repeat split.
Qed.

(** C8 as stated fails on two inputs.  On [restedTargetWorld] the dragged
    element ["a"] computes to the identity matrix, and yet the settle step
    writes the transition and leaves the completion on the 200 ms timer,
    [onDragEnd] not being called.  On [rowWorld], a horizontal container
    without a nearest node whose padded left edge is at 27, it declares
    [left: 15px]. *)
Lemma settle_identity_counterexample :
  (isIdentityTransform (transform (getComputedStyle restedTargetWorld 1%nat))
   = true
   /\ match applyTargetNodeTransition (H:=boardUtils) dragEnv 1%nat
              (Some 3%nat) restedTargetWorld with
      | Some w' =>
          calls w' = []
          /\ timers w' = [(200, CompleteTask dragEnv 1%nat)]
          /\ style (elements w' 1%nat) !! "transform"
             = Some "translate3D(0, 0, 0)"
          /\ style (elements w' 1%nat) !! "top" = Some "90px"
      | None => False
      end)
  /\ (direction rowEnv = horizontal
      /\ hasTransform rowWorld 1%nat = true
      /\ getActiveDroppableNode (Utils:=boardUtils) rowWorld 1 "list"
         = Some 0%nat
      /\ left (getBoundingClientRect rowWorld 0%nat)
         + paddingLeft (getComputedStyle rowWorld 0%nat) = 27
      /\ match applyTargetNodeTransition (H:=boardUtils) rowEnv 1%nat None
                 rowWorld with
         | Some w' => style (elements w' 1%nat) !! "left"
         | None => None
         end = Some "15px").
Proof. vm_compute. repeat split; reflexivity. Qed.

(** ** Facts about [transformNodesByTarget] *)

Section PassFacts.
Context `{Utils} (env : DroppableEnv) (target : NodeId) (pointer : Pointer)
  (w : World).

Local Abbreviation isDragged n :=
  (detectIsActiveDraggableNode w n (activeDraggableID env)).
Local Abbreviation threshold := (axisThreshold (direction env) w target pointer).
Local Abbreviation edge n := (leadingEdge (direction env) w n).
Local Abbreviation gap n := (gapOf (direction env) w target pointer n).
Local Abbreviation step := (passStep env target pointer w).

Lemma collectFns_from (ns : list NodeId) (fns : list ShiftFn) :
  foldl
    (fun fns node =>
       if isDragged node then fns
       else fns ++ [shiftFnOf target pointer w node])
    fns ns
  = fns ++ flat_map
             (fun node =>
                if isDragged node then []
                else [shiftFnOf target pointer w node]) ns.
Proof.
  revert fns. induction ns as [|n ns IH]; intros fns; simpl.
  - by rewrite app_nil_r.
  - rewrite IH. destruct (isDragged n); simpl; [done|].
    by rewrite <- app_assoc.
Qed.

Lemma reorderPass_fused :
  reorderPass env target pointer w
  = foldl step (mkPass w None None) (nodes env).
Proof.
  unfold reorderPass, collectFns. rewrite collectFns_from. simpl.
  generalize (mkPass w None None).
  induction (nodes env) as [|n ns IH]; intros p; simpl; [done|].
  rewrite foldl_app, <- IH. unfold passStep.
  by destruct (isDragged n).
Qed.

Lemma runShiftFn_unfold (p : Pass) (n : NodeId) :
  runShiftFn env p (shiftFnOf target pointer w n)
  = if threshold <=? edge n then
      mkPass (setStyles n (shiftStyles env) (passWorld p))
        (nearestNode p) (minimalDiff p)
    else if belowMinimalDiff (gap n) (minimalDiff p)
    then mkPass (removeStyles n ["transform"] (passWorld p))
           (Some n) (Some (gap n))
    else mkPass (removeStyles n ["transform"] (passWorld p))
           (nearestNode p) (minimalDiff p).
Proof.
  unfold runShiftFn, gapOf, axisThreshold, leadingEdge.
  by destruct (direction env).
Qed.

Lemma runShiftFn_shift (p : Pass) (n : NodeId) :
  threshold <= edge n ->
  runShiftFn env p (shiftFnOf target pointer w n)
  = mkPass (setStyles n (shiftStyles env) (passWorld p))
      (nearestNode p) (minimalDiff p).
Proof.
  intros Hle%Z.leb_le. by rewrite runShiftFn_unfold, Hle.
Qed.

Lemma runShiftFn_stay (p : Pass) (n : NodeId) :
  edge n < threshold ->
  runShiftFn env p (shiftFnOf target pointer w n)
  = if belowMinimalDiff (gap n) (minimalDiff p)
    then mkPass (removeStyles n ["transform"] (passWorld p))
           (Some n) (Some (gap n))
    else mkPass (removeStyles n ["transform"] (passWorld p))
           (nearestNode p) (minimalDiff p).
Proof.
  intros Hlt%Z.leb_gt. by rewrite runShiftFn_unfold, Hlt.
Qed.

Lemma passStep_elements (p : Pass) (n m : NodeId) :
  elements (passWorld (step p n)) m
  = if bool_decide (n = m) && negb (isDragged n)
    then restyle env target pointer w n (elements (passWorld p) m)
    else elements (passWorld p) m.
Proof.
  unfold passStep, restyle. destruct (isDragged n) eqn:Hd.
  { by rewrite andb_false_r. }
  rewrite andb_true_r.
  destruct (Z.leb_spec0 threshold (edge n)) as [Hle|Hgt].
  - rewrite runShiftFn_shift by done. simpl. case_bool_decide as Hnm.
    + subst m. by rewrite fn_lookup_alter.
    + by rewrite fn_lookup_alter_ne.
  - rewrite runShiftFn_stay by lia.
    assert (forall a b : Pass,
               passWorld a = passWorld b ->
               passWorld (if belowMinimalDiff (gap n) (minimalDiff p)
                          then a else b) = passWorld a) as Hif.
    { intros a b Hab. by destruct (belowMinimalDiff _ _). }
    rewrite Hif by done. simpl. case_bool_decide as Hnm.
    + subst m. by rewrite fn_lookup_alter.
    + by rewrite fn_lookup_alter_ne.
Qed.

Lemma shiftStyles_lookup (s : gmap string string) :
  setStyleProperties (shiftStyles env) s !! "transition"
  = Some ("transform " +:+ pretty (transitionTimeout env) +:+ "ms "
          +:+ transitionTimingFn env)
  /\ setStyleProperties (shiftStyles env) s !! "transform"
     = Some (match direction env with
             | vertical =>
                 "translate3d(0px, " +:+ pretty (nodeHeight env)
                 +:+ "px, 0px)"
             | horizontal =>
                 "translate3d(" +:+ pretty (nodeWidth env)
                 +:+ "px, 0px, 0px)"
             end)
  /\ forall k, k <> "transition" -> k <> "transform" ->
       setStyleProperties (shiftStyles env) s !! k = s !! k.
Proof.
  unfold setStyleProperties, shiftStyles. simpl foldl. unfold namesMap. simpl.
  repeat split; style_lookup; try done.
  intros k H1 H2. by rewrite !lookup_insert_ne.
Qed.

Lemma shiftStyles_idempotent (s : gmap string string) :
  setStyleProperties (shiftStyles env) (setStyleProperties (shiftStyles env) s)
  = setStyleProperties (shiftStyles env) s.
Proof.
  destruct (shiftStyles_lookup s) as (Htr & Htf & Hother).
  destruct (shiftStyles_lookup (setStyleProperties (shiftStyles env) s))
    as (Htr' & Htf' & Hother').
  apply map_eq. intros k.
  destruct (decide (k = "transition")) as [->|Hk1]; [congruence|].
  destruct (decide (k = "transform")) as [->|Hk2]; [congruence|].
  by rewrite Hother'.
Qed.

Lemma removeTransform_idempotent (s : gmap string string) :
  removeStyleProperties ["transform"] (removeStyleProperties ["transform"] s)
  = removeStyleProperties ["transform"] s.
Proof.
  destruct (removeStyleProperties_transform s) as [Hgone _].
  unfold removeStyleProperties at 1. cbn [foldl]. by rewrite Hgone.
Qed.

Lemma restyle_idempotent (n : NodeId) (e : Element) :
  restyle env target pointer w n (restyle env target pointer w n e)
  = restyle env target pointer w n e.
Proof.
  unfold restyle. destruct (_ <=? _); destruct e as [a r c s pa ch];
    unfold set_style; cbn [attributes boundingClientRect computedStyle style
                             parentElement childNodes].
  - by rewrite shiftStyles_idempotent.
  - by rewrite removeTransform_idempotent.
Qed.

Lemma pass_elements (ns : list NodeId) (p : Pass) (m : NodeId) :
  elements (passWorld (foldl step p ns)) m
  = if bool_decide (m ∈ ns) && negb (isDragged m)
    then restyle env target pointer w m (elements (passWorld p) m)
    else elements (passWorld p) m.
Proof.
  revert p. induction ns as [|n ns IH]; intros p; cbn [foldl].
  - by rewrite bool_decide_eq_false_2 by apply not_elem_of_nil.
  - rewrite IH, passStep_elements.
    destruct (decide (n = m)) as [->|Hnm].
    + rewrite (bool_decide_eq_true_2 (m = m)) by done.
      rewrite (bool_decide_eq_true_2 (m ∈ m :: ns)) by apply list_elem_of_here.
      destruct (isDragged m); cbn [negb andb].
      * by rewrite andb_false_r.
      * rewrite andb_true_r.
        case_bool_decide; [apply restyle_idempotent | done].
    + rewrite (bool_decide_eq_false_2 (n = m)) by done. cbn [andb].
      assert (bool_decide (m ∈ ns) = bool_decide (m ∈ n :: ns)) as ->; [|done].
      apply bool_decide_ext. rewrite elem_of_cons.
      split; [by right | by intros [->|?]].
Qed.

Lemma passStep_dragged (p : Pass) (n : NodeId) :
  isDragged n = true -> step p n = p.
Proof. intros Hn. unfold passStep. by rewrite Hn. Qed.

Lemma passStep_sibling (p : Pass) (n : NodeId) :
  isDragged n = false ->
  step p n = runShiftFn env p (shiftFnOf target pointer w n).
Proof. intros Hn. unfold passStep. by rewrite Hn. Qed.

Lemma pass_nearest (ns : list NodeId) :
  let p := foldl step (mkPass w None None) ns in
  match nearestNode p with
  | None =>
      minimalDiff p = None
      /\ forall n, n ∈ ns -> isDragged n = true \/ threshold <= edge n
  | Some n =>
      minimalDiff p = Some (gap n)
      /\ isDragged n = false /\ edge n < threshold
      /\ exists l1 l2,
           ns = l1 ++ n :: l2
           /\ (forall m, m ∈ l1 -> isDragged m = false -> edge m < threshold ->
                gap n < gap m)
           /\ (forall m, m ∈ l2 -> isDragged m = false -> edge m < threshold ->
                gap n <= gap m)
  end.
Proof.
  induction ns as [|x ns IH] using rev_ind; cbn zeta.
  - simpl. split; [done|]. by intros n ?%elem_of_nil.
  - cbn zeta in IH. rewrite foldl_app. cbn [foldl].
    set (p := foldl step (mkPass w None None) ns) in *.
    destruct (isDragged x) eqn:Hx.
    { rewrite passStep_dragged by done.
      destruct (nearestNode p) as [n|].
      - destruct IH as (Hmin & Hn & Hlt & l1 & l2 & -> & Hl1 & Hl2).
        repeat split; try done. exists l1, (l2 ++ [x]).
        split; [by rewrite <- app_assoc|]. split; [done|].
        intros m [Hm| ->%list_elem_of_singleton]%elem_of_app ? ?;
          [by apply Hl2 | congruence].
      - destruct IH as [Hmin Hall]. split; [done|].
        intros n [Hn| ->%list_elem_of_singleton]%elem_of_app;
          [by apply Hall | by left]. }
    rewrite passStep_sibling by done.
    destruct (Z.le_gt_cases threshold (edge x)) as [Hshift|Hstay].
    { rewrite runShiftFn_shift by done. cbn [nearestNode minimalDiff].
      destruct (nearestNode p) as [n|].
      - destruct IH as (Hmin & Hn & Hlt & l1 & l2 & -> & Hl1 & Hl2).
        repeat split; try done. exists l1, (l2 ++ [x]).
        split; [by rewrite <- app_assoc|]. split; [done|].
        intros m [Hm| ->%list_elem_of_singleton]%elem_of_app ? ?;
          [by apply Hl2 | lia].
      - destruct IH as [Hmin Hall]. split; [done|].
        intros n [Hn| ->%list_elem_of_singleton]%elem_of_app;
          [by apply Hall | by right]. }
    rewrite runShiftFn_stay by done.
    destruct (nearestNode p) as [n|] eqn:Hnear.
    + destruct IH as (Hmin & Hn & Hlt & l1 & l2 & -> & Hl1 & Hl2).
      rewrite Hmin. cbn [belowMinimalDiff].
      destruct (Z.ltb_spec (gap x) (gap n)) as [Hless|Hge];
        cbn [nearestNode minimalDiff].
      * repeat split; try done. exists (l1 ++ n :: l2), [].
        split; [done|]. split; [|by intros m ?%elem_of_nil].
        intros m [Hm|[->|Hm]%elem_of_cons]%elem_of_app Hd Hs.
        -- specialize (Hl1 m Hm Hd Hs). lia.
        -- done.
        -- specialize (Hl2 m Hm Hd Hs). lia.
      * repeat split; try done. exists l1, (l2 ++ [x]).
        split; [by rewrite <- app_assoc|]. split; [done|].
        intros m [Hm| ->%list_elem_of_singleton]%elem_of_app ? ?;
          [by apply Hl2 | done].
    + destruct IH as [Hmin Hall]. rewrite Hmin. cbn [belowMinimalDiff].
      cbn [nearestNode minimalDiff]. repeat split; try done.
      exists ns, []. split; [done|]. split; [|by intros m ?%elem_of_nil].
      intros m Hm Hd Hs. destruct (Hall m Hm); [congruence | lia].
Qed.

(** C2. One reorder pass: the dragged sibling is skipped; every other
    sibling whose leading edge is at or past the threshold gets the
    transform translating it by the dragged item's frozen size, with the
    configured transition; every remaining sibling has its transform
    removed; the nearest node is, among the siblings that stay, the one with
    the smallest gap, the first such in sibling order, and it is never the
    dragged item; that node is what the pass reports. *)
Theorem transformNodesByTarget_pass :
  let p := reorderPass env target pointer w in
  (forall n, isDragged n = true -> elements (passWorld p) n = elements w n)
  /\ (forall n, n ∈ nodes env -> isDragged n = false ->
       threshold <= edge n ->
       style (elements (passWorld p) n) !! "transform"
       = Some (match direction env with
               | vertical =>
                   "translate3d(0px, " +:+ pretty (nodeHeight env)
                   +:+ "px, 0px)"
               | horizontal =>
                   "translate3d(" +:+ pretty (nodeWidth env)
                   +:+ "px, 0px, 0px)"
               end)
       /\ style (elements (passWorld p) n) !! "transition"
          = Some ("transform " +:+ pretty (transitionTimeout env) +:+ "ms "
                  +:+ transitionTimingFn env)
       /\ forall k, k <> "transition" -> k <> "transform" ->
            style (elements (passWorld p) n) !! k
            = style (elements w n) !! k)
  /\ (forall n, n ∈ nodes env -> isDragged n = false ->
       edge n < threshold ->
       getPropertyValue "transform" (style (elements (passWorld p) n)) = ""
       /\ forall k, k <> "transform" ->
            style (elements (passWorld p) n) !! k
            = style (elements w n) !! k)
  /\ match nearestNode p with
     | None =>
         forall n, n ∈ nodes env -> isDragged n = true \/ threshold <= edge n
     | Some n =>
         isDragged n = false /\ edge n < threshold
         /\ exists l1 l2,
              nodes env = l1 ++ n :: l2
              /\ (forall m, m ∈ l1 -> isDragged m = false ->
                   edge m < threshold -> gap n < gap m)
              /\ (forall m, m ∈ l2 -> isDragged m = false ->
                   edge m < threshold -> gap n <= gap m)
     end
  /\ forall onMark,
       transformNodesByTarget env target pointer onMark w
       = onMark (nearestNode p) target (passWorld p).
Proof.
  cbn zeta. rewrite reorderPass_fused.
  split; [|split; [|split; [|split]]].
  - intros n Hn. rewrite pass_elements, Hn. by rewrite andb_false_r.
  - intros n Hin Hn Hshift. rewrite pass_elements, Hn.
    rewrite bool_decide_eq_true_2 by done. cbn [negb andb passWorld].
    unfold restyle. apply Z.leb_le in Hshift. rewrite Hshift.
    destruct (elements w n) as [a r c s pa ch]. cbn [style set_style].
    destruct (shiftStyles_lookup s) as (Htr & Htf & Hother).
    split; [done|]. split; [done|]. done.
  - intros n Hin Hn Hstay. rewrite pass_elements, Hn.
    rewrite bool_decide_eq_true_2 by done. cbn [negb andb passWorld].
    unfold restyle. apply Z.leb_gt in Hstay. rewrite Hstay.
    destruct (elements w n) as [a r c s pa ch]. cbn [style set_style].
    apply removeStyleProperties_transform.
  - pose proof (pass_nearest (nodes env)) as Hnear. cbn zeta in Hnear.
    destruct (nearestNode _) as [n|]; [|by destruct Hnear].
    destruct Hnear as (_ & Hn & Hlt & Hsplit). done.
  - intros onMark. unfold transformNodesByTarget.
    by rewrite reorderPass_fused.
Qed.

End PassFacts.

(** With the [onMarkNearestNode] of [Droppable] the pass records its
    nearest node in [nearestNodeRef] and reports it to [onDragOver]. *)
Lemma transformNodesByTarget_records `{Utils} (env : DroppableEnv)
    (target : NodeId) (pointer : Pointer) (w : World) :
  let p := reorderPass env target pointer w in
  let w' := transformNodesByTarget env target pointer onMarkNearestNode w in
  nearestNodeRef w' = nearestNode p
  /\ calls w' = calls (passWorld p) ++ [CallOnDragOver (nearestNode p) target]
  /\ elements w' = elements (passWorld p).
Proof. done. Qed.

(** The numeric case of three siblings at tops 0, 50 and 120 with the
    threshold at 60: the one at 120 is shifted by the dragged height 40, the
    other two stay, and the one at 50 is the nearest. *)
Example dragWorld_pass :
  let p := reorderPass (H:=boardUtils) dragEnv 1%nat (mkPointer 10 70)
             dragWorld in
  nearestNode p = Some 3%nat
  /\ minimalDiff p = Some 10
  /\ map (fun n => getPropertyValue "transform"
                     (style (elements (passWorld p) n))) [1; 2; 3; 4]%nat
     = [""; ""; ""; "translate3d(0px, 40px, 0px)"].
Proof. vm_compute. done. Qed.

(** ** Facts about the intersection sensor *)

Lemma cornerInside_spec `{Utils} (inner outer : DOMRect) :
  cornerInside inner outer = true
  <-> (safeNumber (top outer) < safeNumber (top inner)
       /\ safeNumber (top inner)
          < safeNumber (top outer) + safeNumber (height outer))
      /\ (safeNumber (left outer) < safeNumber (left inner)
          /\ safeNumber (left inner)
             < safeNumber (left outer) + safeNumber (width outer)).
Proof.
  unfold cornerInside.
  rewrite !andb_true_iff, !Z.gtb_ltb, !Z.ltb_lt. tauto.
Qed.

(** C3 as stated fails: the sensor does not look at the centre of the
    dragged rectangle.  A 100 x 100 item whose corner coincides with the
    corner of a 200 x 200 container has its centre strictly inside and does
    not activate it; an item whose corner is inside but whose centre is
    outside activates it. *)
Lemma intersection_centre_counterexample :
  (isSomeDragging hoverEnv = true /\ isActiveGroup hoverEnv = true
   /\ isActive hoverEnv = false)
  /\ (centreInside (mkRect 10 10 100 100) (mkRect 10 10 200 200) = true
      /\ intersectionHandleEvent (H:=boardUtils) hoverEnv
           (hoverWorld (mkRect 10 10 100 100))
         = Some (hoverWorld (mkRect 10 10 100 100)))
  /\ (centreInside (mkRect 150 150 200 200) (mkRect 10 10 200 200) = false
      /\ intersectionHandleEvent (H:=boardUtils) hoverEnv
           (hoverWorld (mkRect 150 150 200 200))
         = Some (logCall (CallOnIntersect "list")
                   (hoverWorld (mkRect 150 150 200 200)))).
Proof. vm_compute. repeat split; reflexivity. Qed.

(** C3, amended.  While a drag is active in the container's group and the
    container is not the active one, a sample for which the container is
    mounted and the dragged element is found fires the intersection
    callback exactly when the top-left corner of the dragged rectangle lies
    strictly inside the container's rectangle on both axes; a corner on an
    edge does not fire it. *)
Theorem intersectionHandleEvent_fires `{Utils} (env : DroppableEnv)
    (w : World) (root draggable : NodeId)
    (Hdrag : isSomeDragging env = true)
    (Hgroup : isActiveGroup env = true)
    (Hidle : isActive env = false)
    (Hroot : rootNode env = Some root)
    (Hnode : getActiveDraggableNode w (contextID env) (activeDraggableID env)
             = Some draggable) :
  let inner := getBoundingClientRect w draggable in
  let outer := getBoundingClientRect w root in
  let strictlyInside :=
    (safeNumber (top outer) < safeNumber (top inner)
     /\ safeNumber (top inner)
        < safeNumber (top outer) + safeNumber (height outer))
    /\ (safeNumber (left outer) < safeNumber (left inner)
        /\ safeNumber (left inner)
           < safeNumber (left outer) + safeNumber (width outer)) in
  (strictlyInside ->
   intersectionHandleEvent env w
   = Some (logCall (CallOnIntersect (droppableID env)) w))
  /\ (~ strictlyInside -> intersectionHandleEvent env w = Some w).
Proof.
  intros inner outer strictlyInside.
  assert (intersectionHandleEvent env w
          = if cornerInside inner outer
            then Some (logCall (CallOnIntersect (droppableID env)) w)
            else Some w) as ->.
  { unfold intersectionHandleEvent, cornerInside.
    rewrite Hdrag, Hgroup, Hidle, Hroot, Hnode. cbn [negb].
    subst inner outer.
    by destruct (_ >? _), (_ <? _), (_ >? _), (_ <? _). }
  pose proof (cornerInside_spec inner outer) as Hspec.
  fold strictlyInside in Hspec.
  destruct (cornerInside inner outer); split; intros Hin; try done.
  - destruct Hin. by apply Hspec.
  - by apply Hspec in Hin.
Qed.

Lemma intersectionHandleEvent_fires_witness :
  intersectionHandleEvent (H:=boardUtils) hoverEnv
    (hoverWorld (mkRect 50 50 100 100))
  = Some (logCall (CallOnIntersect "list")
            (hoverWorld (mkRect 50 50 100 100))).
Proof.
  apply (intersectionHandleEvent_fires (H:=boardUtils) hoverEnv
           (hoverWorld (mkRect 50 50 100 100)) 0%nat 1%nat
           eq_refl eq_refl eq_refl eq_refl eq_refl).
  vm_compute. repeat split; reflexivity.
Defined.

(** ** Facts about the unsubscriber registry *)

Lemma removeEventListener_elem (target : EventTarget) (type : string)
    (cb : Callback) (w : World) (l : Listener) :
  l ∈ listeners (removeEventListener target type cb w)
  <-> l ∈ listeners w /\ l <> mkListener target type cb.
Proof.
  unfold removeEventListener. simpl.
  rewrite list_elem_of_In, List.filter_In, <- list_elem_of_In.
  rewrite negb_true_iff, bool_decide_eq_false. tauto.
Qed.

Lemma callUnsubscriber_elem (u : Unsubscriber) (w : World) (l : Listener) :
  l ∈ listeners (callUnsubscriber u w)
  <-> l ∈ listeners w
      /\ l <> mkListener DocumentTarget (unsubTypes u).1 (unsubHandler u)
      /\ l <> mkListener DocumentTarget (unsubTypes u).2 (unsubHandler u).
Proof.
  unfold callUnsubscriber. rewrite !removeEventListener_elem. simpl. tauto.
Qed.

Lemma runUnsubscribers_elem (us : list Unsubscriber) (w : World)
    (l : Listener) :
  l ∈ listeners (runUnsubscribers us w)
  <-> l ∈ listeners w
      /\ forall u, u ∈ us ->
           l <> mkListener DocumentTarget (unsubTypes u).1 (unsubHandler u)
           /\ l <> mkListener DocumentTarget (unsubTypes u).2 (unsubHandler u).
Proof.
  unfold runUnsubscribers. revert w.
  induction us as [|u us IH]; intros w; simpl.
  - split; [|tauto]. intros Hl. split; [done|]. by intros u ?%elem_of_nil.
  - rewrite IH, callUnsubscriber_elem. split.
    + intros ((Hl & H1 & H2) & Hrest). split; [done|].
      intros u' [->|Hu']%elem_of_cons; [done | by apply Hrest].
    + intros (Hl & Hall). split.
      * split; [done|]. apply Hall, list_elem_of_here.
      * intros u' Hu'. by apply Hall, list_elem_of_further.
Qed.

Lemma runUnsubscribers_frame (us : list Unsubscriber) (w : World) :
  let w' := runUnsubscribers us w in
  calls w' = calls w ++ (CallUnsubscribe <$> us)
  /\ unsubscribers w' = unsubscribers w
  /\ elements w' = elements w
  /\ timers w' = timers w
  /\ nearestNodeRef w' = nearestNodeRef w
  /\ nextCallback w' = nextCallback w
  /\ removePlaceholder w' = removePlaceholder w
  /\ dndElements w' = dndElements w
  /\ window w' = window w
  /\ nextNode w' = nextNode w.
Proof.
  unfold runUnsubscribers. revert w.
  induction us as [|u us IH]; intros w; cbn zeta; cbn [foldl].
  - rewrite app_nil_r. repeat split.
  - specialize (IH (callUnsubscriber u w)). cbn zeta in IH.
    destruct IH as (-> & -> & -> & -> & -> & -> & -> & -> & -> & ->).
    simpl. rewrite <- app_assoc. repeat split.
Qed.

Lemma unsubscribeAll_unfold (w : World) :
  unsubscribeAll w
  = set_unsubscribers [] (runUnsubscribers (unsubscribers w) w).
Proof.
  unfold unsubscribeAll. cbn zeta.
  destruct (runUnsubscribers_frame (unsubscribers w) w) as (_ & -> & _).
  by rewrite drop_all.
Qed.

Lemma unsubscribeAll_drained (w : World) :
  unsubscribers w = [] -> unsubscribeAll w = w.
Proof.
  intros Hnil. rewrite unsubscribeAll_unfold, Hnil.
  destruct w. simpl in *. by subst.
Qed.

Lemma unsubscribeAll_elem (w : World) (l : Listener) :
  l ∈ listeners (unsubscribeAll w)
  <-> l ∈ listeners w
      /\ forall u, u ∈ unsubscribers w ->
           l <> mkListener DocumentTarget (unsubTypes u).1 (unsubHandler u)
           /\ l <> mkListener DocumentTarget (unsubTypes u).2 (unsubHandler u).
Proof.
  rewrite unsubscribeAll_unfold. apply runUnsubscribers_elem.
Qed.

(** C5. Running the unsubscribe sequence twice leaves the state that
    running it once leaves: the first run calls every registered
    unsubscriber once, in order, removes its listeners and drains the
    registry; the second run calls nothing and removes nothing.  The
    sequence is a total function: no run can fail. *)
Theorem unsubscribeAll_idempotent (w : World) :
  let w1 := unsubscribeAll w in
  let w2 := unsubscribeAll w1 in
  unsubscribers w1 = []
  /\ calls w1 = calls w ++ (CallUnsubscribe <$> unsubscribers w)
  /\ (forall u, u ∈ unsubscribers w ->
        (mkListener DocumentTarget (unsubTypes u).1 (unsubHandler u)
           ∉ listeners w1)
        /\ (mkListener DocumentTarget (unsubTypes u).2 (unsubHandler u)
              ∉ listeners w1))
  /\ w2 = w1
  /\ unsubscribers w2 = []
  /\ listeners w2 = listeners w1
  /\ calls w2 = calls w ++ (CallUnsubscribe <$> unsubscribers w).
Proof.
  intros w1 w2.
  assert (unsubscribers w1 = []) as Hdrained.
  { subst w1. by rewrite unsubscribeAll_unfold. }
  assert (calls w1 = calls w ++ (CallUnsubscribe <$> unsubscribers w))
    as Hcalls.
  { subst w1. rewrite unsubscribeAll_unfold. simpl.
    apply (runUnsubscribers_frame (unsubscribers w) w). }
  assert (w2 = w1) as Hsame by (by apply unsubscribeAll_drained).
  split; [done|]. split; [done|]. split.
  - intros u Hu.
    split; intros Hin; apply unsubscribeAll_elem in Hin as [_ Hall];
      destruct (Hall u Hu); done.
  - rewrite Hsame. done.
Qed.

Example mountSensors_unsubscribed :
  let w := mountSensors dragEnv dragWorld in
  length (listeners w) = 6%nat
  /\ length (unsubscribers w) = 3%nat
  /\ listeners (unsubscribeAll w) = []
  /\ length (calls (unsubscribeAll (unsubscribeAll w))) = 3%nat.
Proof. vm_compute. done. Qed.

(** ** Facts about the placeholder *)

Lemma filter_absent (x : NodeId) (l : list NodeId) :
  x ∉ l -> List.filter (fun c => negb (bool_decide (c = x))) l = l.
Proof.
  induction l as [|a l IH]; intros Hx; simpl; [done|].
  apply not_elem_of_cons in Hx as [Hne Hx].
  rewrite bool_decide_eq_false_2 by done. simpl. by rewrite IH.
Qed.

Lemma filter_appended (x : NodeId) (l : list NodeId) :
  x ∉ l -> List.filter (fun c => negb (bool_decide (c = x))) (l ++ [x]) = l.
Proof.
  intros Hx. rewrite List.filter_app, filter_absent by done. simpl.
  rewrite bool_decide_eq_true_2 by done. simpl. apply app_nil_r.
Qed.

Lemma callRemovePlaceholder_noop (w : World) :
  removePlaceholder w = NoopRemove -> callRemovePlaceholder w = Some w.
Proof. intros Hnoop. unfold callRemovePlaceholder. by rewrite Hnoop. Qed.

Lemma appendChild_detached (parent child : NodeId) (w : World) :
  parentElement (elements w child) = None -> parent <> child ->
  let w' := appendChild parent child w in
  childNodes (elements w' parent) = childNodes (elements w parent) ++ [child]
  /\ parentElement (elements w' child) = Some parent
  /\ removePlaceholder w' = removePlaceholder w
  /\ calls w' = calls w.
Proof.
  intros Hdetached Hne. unfold appendChild. rewrite Hdetached. simpl.
  rewrite fn_lookup_alter_ne, !fn_lookup_alter by done. done.
Qed.

Lemma removeChild_spec (parent child : NodeId) (w : World) :
  parent <> child ->
  let w' := removeChild parent child w in
  childNodes (elements w' parent)
  = List.filter (fun c => negb (bool_decide (c = child)))
      (childNodes (elements w parent))
  /\ parentElement (elements w' child) = None
  /\ calls w' = calls w.
Proof.
  intros Hne. unfold removeChild. simpl.
  rewrite fn_lookup_alter_ne, !fn_lookup_alter by done. done.
Qed.

Lemma createElement_styled (env : DroppableEnv) (w : World) (container : NodeId) :
  container <> nextNode w ->
  let w0 := setStyles (nextNode w) (placeholderStyles env)
              (set_removePlaceholder (DetachPlaceholder (nextNode w))
                 (createElement w)) in
  parentElement (elements w0 (nextNode w)) = None
  /\ elements w0 container = elements w container
  /\ removePlaceholder w0 = DetachPlaceholder (nextNode w)
  /\ calls w0 = calls w.
Proof.
  intros Hne. unfold setStyles, createElement. simpl.
  rewrite fn_lookup_alter, fn_lookup_insert.
  rewrite fn_lookup_alter_ne, fn_lookup_insert_ne by done. done.
Qed.

(** C6. A removal with no insertion before it changes nothing.  An
    insertion appends the filler to the container and notifies once; the
    first removal after it detaches the filler and leaves the no-op as the
    removal operation, so that the second removal changes nothing: the
    container's children are those it had before the insertion, and the
    notification was sent once. *)
Theorem placeholder_idempotent (env : DroppableEnv) (w : World)
    (container : NodeId)
    (Hdragging : isDragging env = true)
    (Hroot : rootNode env = Some container)
    (Halloc : (container < nextNode w)%nat)
    (Hfresh : nextNode w ∉ childNodes (elements w container)) :
  let placeholder := nextNode w in
  (removePlaceholder w = NoopRemove -> callRemovePlaceholder w = Some w)
  /\ exists w1 w2,
       usePlaceholderEffect env w = Some w1
       /\ childNodes (elements w1 container)
          = childNodes (elements w container) ++ [placeholder]
       /\ parentElement (elements w1 placeholder) = Some container
       /\ removePlaceholder w1 = DetachPlaceholder placeholder
       /\ calls w1 = calls w ++ [CallOnInsertPlaceholder]
       /\ callRemovePlaceholder w1 = Some w2
       /\ childNodes (elements w2 container)
          = childNodes (elements w container)
       /\ (placeholder ∉ childNodes (elements w2 container))
       /\ parentElement (elements w2 placeholder) = None
       /\ removePlaceholder w2 = NoopRemove
       /\ callRemovePlaceholder w2 = Some w2
       /\ calls w2 = calls w ++ [CallOnInsertPlaceholder].
Proof.
  intros placeholder. split; [apply callRemovePlaceholder_noop|].
  assert (container <> placeholder) as Hne by (subst placeholder; lia).
  unfold usePlaceholderEffect. rewrite Hdragging, Hroot.
  fold placeholder.
  destruct (createElement_styled env w container Hne)
    as (Hdetached & Hcontainer & Hscope & Hcalls).
  fold placeholder in Hdetached, Hcontainer, Hscope, Hcalls.
  set (w0 := setStyles placeholder (placeholderStyles env)
               (set_removePlaceholder (DetachPlaceholder placeholder)
                  (createElement w))) in *.
  destruct (appendChild_detached container placeholder w0 Hdetached Hne)
    as (Hchildren & Hparent & Hscope' & Hcalls').
  set (wa := appendChild container placeholder w0) in *.
  set (w1 := logCall CallOnInsertPlaceholder wa).
  destruct (removeChild_spec container placeholder w1 Hne)
    as (Hfiltered & Hgone & Hcalls'').
  set (wr := removeChild container placeholder w1) in *.
  set (w2 := set_removePlaceholder NoopRemove wr).
  assert (childNodes (elements w2 container)
          = childNodes (elements w container)) as Hback.
  { change (childNodes (elements wr container)
            = childNodes (elements w container)).
    rewrite Hfiltered.
    change (elements w1 container) with (elements wa container).
    rewrite Hchildren, Hcontainer. by apply filter_appended. }
  exists w1, w2.
  split; [done|].
  split.
  { change (elements w1 container) with (elements wa container).
    by rewrite Hchildren, Hcontainer. }
  split; [done|].
  split.
  { change (removePlaceholder w1) with (removePlaceholder wa).
    by rewrite Hscope'. }
  split.
  { change (calls w1) with (calls wa ++ [CallOnInsertPlaceholder]).
    by rewrite Hcalls', Hcalls. }
  split.
  { unfold callRemovePlaceholder.
    change (removePlaceholder w1) with (removePlaceholder wa).
    rewrite Hscope', Hscope.
    change (elements w1 placeholder) with (elements wa placeholder).
    by rewrite Hparent. }
  split; [done|]. split; [by rewrite Hback|].
  split; [done|]. split; [done|]. split; [done|].
  change (calls w2) with (calls wr). rewrite Hcalls''.
  change (calls w1) with (calls wa ++ [CallOnInsertPlaceholder]).
  by rewrite Hcalls', Hcalls.
Qed.

Lemma placeholder_idempotent_witness :
  exists w1 w2,
    usePlaceholderEffect dragEnv dragWorld = Some w1
    /\ callRemovePlaceholder w1 = Some w2
    /\ childNodes (elements w2 0%nat) = [1; 2; 3; 4]%nat
    /\ callRemovePlaceholder w2 = Some w2
    /\ calls w2 = [CallOnInsertPlaceholder].
Proof.
  assert (5%nat ∉ [1; 2; 3; 4]%nat) as Hfresh.
  { intros Hin. repeat (apply elem_of_cons in Hin as [Heq|Hin];
      [discriminate Heq|]). by apply elem_of_nil in Hin. }
  destruct (proj2 (placeholder_idempotent dragEnv dragWorld 0%nat
                     eq_refl eq_refl (le_S _ _ (le_S _ _ (le_S _ _
                        (le_S _ _ (le_n 1))))) Hfresh))
    as (w1 & w2 & Hin & _ & _ & _ & _ & Hout & Hkids & _ & _ & _ & Hagain
        & Hcalls).
  exists w1, w2. repeat split; assumption.
Defined.

(** ** Facts about the release handler *)

Lemma addEventListener_elem (target : EventTarget) (type : string)
    (cb : Callback) (w : World) (l : Listener) :
  l ∈ listeners (addEventListener target type cb w)
  <-> l ∈ listeners w \/ l = mkListener target type cb.
Proof.
  unfold addEventListener. case_decide as Hin; simpl.
  - split; [by left|]. by intros [?| ->].
  - rewrite elem_of_app, list_elem_of_singleton. tauto.
Qed.

Lemma addEventListener_unsubscribers (target : EventTarget) (type : string)
    (cb : Callback) (w : World) :
  unsubscribers (addEventListener target type cb w) = unsubscribers w.
Proof. unfold addEventListener. by case_decide. Qed.

Lemma subscribe_unsubscribers (types : string * string) (w : World) :
  unsubscribers (subscribe types w)
  = unsubscribers w
    ++ [mkUnsubscriber types (SensorHandler (nextCallback w))].
Proof.
  unfold subscribe. simpl. by rewrite !addEventListener_unsubscribers.
Qed.

Lemma subscribe_elem (types : string * string) (w : World) (l : Listener) :
  l ∈ listeners (subscribe types w)
  <-> l ∈ listeners w
      \/ l = mkListener DocumentTarget types.1 (SensorHandler (nextCallback w))
      \/ l = mkListener DocumentTarget types.2 (SensorHandler (nextCallback w)).
Proof.
  unfold subscribe. simpl. rewrite !addEventListener_elem. simpl. tauto.
Qed.

Lemma subscribe_registered (types : string * string) (w : World) :
  registered w -> registered (subscribe types w).
Proof.
  intros Hreg l Hl Htarget. rewrite subscribe_unsubscribers.
  apply subscribe_elem in Hl as [Hl|Hl].
  - destruct (Hreg l Hl Htarget) as (u & Hu & Hcb & Htype).
    exists u. split; [|done]. apply elem_of_app. by left.
  - exists (mkUnsubscriber types (SensorHandler (nextCallback w))).
    split; [apply elem_of_app; right; apply list_elem_of_here|].
    destruct Hl as [-> | ->]; simpl; split; auto.
Qed.

Lemma mountSensors_registered (env : DroppableEnv) (w : World) :
  registered w -> registered (mountSensors env w).
Proof.
  intros Hreg.
  unfold mountSensors, useMoveEndSensorEffect, useMoveSensorEffect,
    useIntersectionEffect.
  destruct (negb (isDragging env)), (negb (isSomeDragging env));
    repeat apply subscribe_registered; done.
Qed.

Lemma boardWorld_registered (els : list Element) : registered (boardWorld els).
Proof. by intros l ?%elem_of_nil. Qed.

Lemma unsubscribeAll_frame (w : World) :
  let w1 := unsubscribeAll w in
  elements w1 = elements w
  /\ timers w1 = timers w
  /\ nearestNodeRef w1 = nearestNodeRef w
  /\ nextCallback w1 = nextCallback w
  /\ calls w1 = calls w ++ (CallUnsubscribe <$> unsubscribers w).
Proof.
  cbn zeta. rewrite unsubscribeAll_unfold. simpl.
  destruct (runUnsubscribers_frame (unsubscribers w) w)
    as (-> & _ & -> & -> & -> & -> & _).
  done.
Qed.

Lemma registered_unsubscribed (w : World) (l : Listener) :
  registered w -> l ∈ listeners (unsubscribeAll w) ->
  listenerTarget l <> DocumentTarget.
Proof.
  intros Hreg [Hl Hall]%unsubscribeAll_elem Htarget.
  destruct (Hreg l Hl Htarget) as (u & Hu & Hcb & Htype).
  destruct (Hall u Hu) as [H1 H2]. destruct l as [t ty cb]. simpl in *.
  subst t cb. destruct Htype as [->| ->]; [by apply H1 | by apply H2].
Qed.

Lemma unsubscribeAll_dndElements (w : World) :
  dndElements (unsubscribeAll w) = dndElements w.
Proof.
  rewrite unsubscribeAll_unfold. simpl.
  by destruct (runUnsubscribers_frame (unsubscribers w) w)
    as (_ & _ & _ & _ & _ & _ & _ & -> & _).
Qed.

Lemma getActiveDraggableNode_elements (w w' : World) (contextID : Z)
    (activeDraggableID : ID) :
  elements w' = elements w -> dndElements w' = dndElements w ->
  getActiveDraggableNode w' contextID activeDraggableID
  = getActiveDraggableNode w contextID activeDraggableID.
Proof.
  intros Hels Hdnd. unfold getActiveDraggableNode, getAttribute.
  by rewrite Hels, Hdnd.
Qed.

Lemma dragEndDescriptor_elements (env : DroppableEnv) (targetNode : NodeId)
    (w w' : World) :
  elements w' = elements w ->
  dragEndDescriptor env targetNode w' = dragEndDescriptor env targetNode w.
Proof.
  intros Hels.
  unfold dragEndDescriptor, countDestinationIdx, detectIsActiveDraggableNode,
    getAttribute, getBoundingClientRect.
  by rewrite Hels.
Qed.

(** The settle step on a state in which the dragged element and the active
    container are found. *)
Lemma applyTransition_settles `{Utils} (env : DroppableEnv)
    (nearest : option NodeId) (w : World) (targetNode droppableNode : NodeId) :
  getActiveDraggableNode w (contextID env) (activeDraggableID env)
  = Some targetNode ->
  getActiveDroppableNode w (contextID env) (activeDroppableID env)
  = Some droppableNode ->
  exists w',
    applyTransition env nearest w = Some w'
    /\ settledFrom env targetNode w w'.
Proof.
  intros Htarget Hcontainer.
  unfold applyTransition, applyTargetNodeTransition, settledFrom.
  rewrite Htarget, Hcontainer.
  destruct (getDroppableContainerOffsets w droppableNode)
    as [droppableTop droppableLeft].
  destruct (hasTransform w targetNode); eexists; (split; [reflexivity|]).
  - change (elements (setTimeout ?t ?d ?w0)) with (elements w0).
    rewrite setStyles_elements_same. unfold settleStyles, setStyleProperties.
    simpl foldl. unfold namesMap. simpl.
    repeat split; style_lookup; done.
  - repeat split.
Qed.

(** C7, amended.  On release every registered unsubscriber has run and the
    registry is empty before anything else happens, so no document listener
    (move listeners included) is left when the settle step starts.  If the
    nearest node exists and its computed [transform] is anything but
    ["none"] (an identity matrix included, the test of line 413), the
    release settles nothing: it only adds a [transitionend] listener on
    that node.  An event arriving there whose target is not the nearest
    node or whose property is not exactly ["transform"] leaves the state as
    it is; one for ["transform"] of the nearest node removes the listener
    and settles.  Otherwise the release settles at once on the unsubscribed
    state.  Settling, with the dragged element and the active container
    found, either resets the transform and leaves the completion on a timer
    of the transition duration, or calls [onDragEnd] and leaves the cleanup
    on a zero-delay timer; without the dragged element it throws. *)
Theorem moveEndHandleEvent_sequence `{Utils} (env : DroppableEnv) (w : World)
    (Hreg : registered w) :
  let w1 := unsubscribeAll w in
  (unsubscribers w1 = []
   /\ (forall l, l ∈ listeners w1 -> listenerTarget l <> DocumentTarget)
   /\ elements w1 = elements w
   /\ timers w1 = timers w
   /\ calls w1 = calls w ++ (CallUnsubscribe <$> unsubscribers w))
  /\ (forall nearest,
        nearestNodeRef w = Some nearest -> hasTransform w nearest = true ->
        let k := nextCallback w in
        let listener :=
          mkListener (NodeTarget nearest) "transitionend"
            (HandleTransitionEnd k env nearest) in
        let waiting :=
          addEventListener (NodeTarget nearest) "transitionend"
            (HandleTransitionEnd k env nearest)
            (set_nextCallback (S k) w1) in
        moveEndHandleEvent env w = Some waiting
        /\ elements waiting = elements w
        /\ timers waiting = timers w
        /\ calls waiting = calls w ++ (CallUnsubscribe <$> unsubscribers w)
        /\ unsubscribers waiting = []
        /\ listener ∈ listeners waiting
        /\ (forall l, l ∈ listeners waiting ->
             listenerTarget l <> DocumentTarget)
        /\ forall (e : TransitionEvent) (w' : World),
             (~ (eventTarget e = nearest /\ propertyName e = "transform") ->
              handleTransitionEnd k env nearest e w' = Some w')
             /\ (eventTarget e = nearest -> propertyName e = "transform" ->
                 let w0 :=
                   removeEventListener (NodeTarget nearest) "transitionend"
                     (HandleTransitionEnd k env nearest) w' in
                 (getActiveDraggableNode w' (contextID env)
                    (activeDraggableID env) = None ->
                  handleTransitionEnd k env nearest e w' = None)
                 /\ forall targetNode droppableNode,
                      getActiveDraggableNode w' (contextID env)
                        (activeDraggableID env) = Some targetNode ->
                      getActiveDroppableNode w0 (contextID env)
                        (activeDroppableID env) = Some droppableNode ->
                      exists w2,
                        handleTransitionEnd k env nearest e w' = Some w2
                        /\ (listener ∉ listeners w2)
                        /\ settledFrom env targetNode w0 w2))
  /\ ((nearestNodeRef w = None
       \/ exists nearest,
            nearestNodeRef w = Some nearest /\ hasTransform w nearest = false)
      -> (getActiveDraggableNode w (contextID env) (activeDraggableID env)
          = None -> moveEndHandleEvent env w = None)
         /\ forall targetNode droppableNode,
              getActiveDraggableNode w (contextID env) (activeDraggableID env)
              = Some targetNode ->
              getActiveDroppableNode w1 (contextID env) (activeDroppableID env)
              = Some droppableNode ->
              exists w',
                moveEndHandleEvent env w = Some w'
                /\ unsubscribers w' = []
                /\ (forall l, l ∈ listeners w' ->
                      listenerTarget l <> DocumentTarget)
                /\ settledFrom env targetNode w1 w').
Proof.
  intros w1.
  destruct (unsubscribeAll_frame w) as (Hels & Htimers & Href & Hnext & Hcalls).
  fold w1 in Hels, Htimers, Href, Hnext, Hcalls.
  assert (forall n, hasTransform w1 n = hasTransform w n) as Hsame.
  { intros n. unfold hasTransform, getComputedStyle. by rewrite Hels. }
  assert (unsubscribers w1 = []) as Hdrained.
  { subst w1. by rewrite unsubscribeAll_unfold. }
  assert (getActiveDraggableNode w1 (contextID env) (activeDraggableID env)
          = getActiveDraggableNode w (contextID env) (activeDraggableID env))
    as Hlookup.
  { apply getActiveDraggableNode_elements;
      [done | apply unsubscribeAll_dndElements]. }
  split; [|split].
  - split; [done|]. split; [|done].
    intros l Hl. by apply (registered_unsubscribed w).
  - intros nearest Hnearest Htransform k listener waiting.
    split; [|split; [|split; [|split; [|split; [|split; [|split]]]]]].
    + unfold moveEndHandleEvent. fold w1.
      by rewrite Href, Hnearest, Hsame, Htransform, Hnext.
    + subst waiting. unfold addEventListener. by case_decide.
    + subst waiting. unfold addEventListener. by case_decide.
    + subst waiting. unfold addEventListener. by case_decide.
    + subst waiting. by rewrite addEventListener_unsubscribers.
    + apply addEventListener_elem. by right.
    + intros l [Hl| ->]%addEventListener_elem; [|done].
      by apply (registered_unsubscribed w).
    + intros e w'. unfold handleTransitionEnd. split.
      * intros Hother.
        destruct (decide (eventTarget e = nearest)) as [Ht|Ht];
          destruct (decide (propertyName e = "transform")) as [Hp|Hp];
          try tauto.
        -- rewrite (bool_decide_eq_false_2 _ Hp). by rewrite andb_false_r.
        -- by rewrite (bool_decide_eq_false_2 _ Ht).
        -- by rewrite (bool_decide_eq_false_2 _ Ht).
      * intros Ht Hp. rewrite !bool_decide_eq_true_2 by done. cbn [andb].
        set (w0 := removeEventListener _ _ _ w').
        assert (getActiveDraggableNode w0 (contextID env)
                  (activeDraggableID env)
                = getActiveDraggableNode w' (contextID env)
                    (activeDraggableID env)) as Hlookup0 by done.
        split.
        -- intros Hnone. unfold applyTransition. by rewrite Hlookup0, Hnone.
        -- intros targetNode droppableNode Htarget Hcontainer.
           rewrite <- Hlookup0 in Htarget.
           destruct (applyTransition_settles env (Some nearest) w0 targetNode
                       droppableNode Htarget Hcontainer)
             as (w2 & Hrun & Hsettled).
           exists w2. split; [done|]. split; [|done].
           destruct Hsettled as (-> & _).
           subst w0. rewrite removeEventListener_elem. by intros [_ Hne].
  - intros Hnow.
    assert (moveEndHandleEvent env w
            = applyTransition env (nearestNodeRef w) w1) as Hstep.
    { unfold moveEndHandleEvent. fold w1. rewrite Href.
      destruct Hnow as [->|(nearest & -> & Hnone)]; [done|].
      by rewrite Hsame, Hnone. }
    rewrite Hstep. split.
    + intros Hnone. unfold applyTransition. by rewrite Hlookup, Hnone.
    + intros targetNode droppableNode Htarget Hcontainer.
      rewrite <- Hlookup in Htarget.
      destruct (applyTransition_settles env (nearestNodeRef w) w1 targetNode
                  droppableNode Htarget Hcontainer)
        as (w' & Hrun & Hsettled).
      exists w'. split; [done|].
      destruct Hsettled as (Hlisteners & Hunsub & Heffects).
      split; [by rewrite Hunsub|]. split.
      * intros l Hl. rewrite Hlisteners in Hl.
        by apply (registered_unsubscribed w).
      * done.
Qed.

Lemma set_nearestNodeRef_registered (r : option NodeId) (w : World) :
  registered w -> registered (set_nearestNodeRef r w).
Proof. intros Hreg l Hl Htarget. exact (Hreg l Hl Htarget). Qed.

Lemma releaseWorld_registered : registered releaseWorld.
Proof.
  unfold releaseWorld, dragWorld.
  apply set_nearestNodeRef_registered, mountSensors_registered,
    boardWorld_registered.
Qed.

Lemma moveEndHandleEvent_sequence_witness :
  registered releaseWorld
  /\ unsubscribers (unsubscribeAll releaseWorld) = []
  /\ forall l, l ∈ listeners (unsubscribeAll releaseWorld) ->
       listenerTarget l <> DocumentTarget.
Proof.
  split; [exact releaseWorld_registered|].
  destruct (proj1 (moveEndHandleEvent_sequence (H:=boardUtils) dragEnv
                     releaseWorld releaseWorld_registered))
    as (Hdrained & Hnone & _).
  split; assumption.
Defined.

(** C7 as stated fails: the release does not ask whether the transform of
    the nearest node is the identity.  On [restedWorld] the nearest node
    ["c"] computes to the identity matrix, and yet the release does not
    settle: it registers the [transitionend] listener and returns, with no
    timer set, [onDragEnd] not called and the dragged element ["a"] not
    styled.  Settling at once from the unsubscribed state would have put
    the completion on the 200 ms timer. *)
Lemma release_identity_counterexample :
  nearestNodeRef restedWorld = Some 3%nat
  /\ isIdentityTransform (transform (getComputedStyle restedWorld 3%nat)) = true
  /\ match moveEndHandleEvent (H:=boardUtils) dragEnv restedWorld with
     | Some w' =>
         timers w' = []
         /\ calls w' = (CallUnsubscribe <$> unsubscribers restedWorld)
         /\ style (elements w' 1%nat) !! "transform" = None
         /\ style (elements w' 1%nat) !! "top" = None
         /\ listeners w'
            = [mkListener (NodeTarget 3%nat) "transitionend"
                 (HandleTransitionEnd (nextCallback restedWorld) dragEnv 3%nat)]
     | None => False
     end
  /\ match applyTransition (H:=boardUtils) dragEnv (Some 3%nat)
             (unsubscribeAll restedWorld) with
     | Some w' =>
         timers w' = [(200, CompleteTask dragEnv 1%nat)]
         /\ style (elements w' 1%nat) !! "transform"
            = Some "translate3D(0, 0, 0)"
     | None => False
     end.
Proof. vm_compute. repeat split; reflexivity. Qed.

(** The release on [releaseWorld]: the nearest node ["c"] carries a
    transform, so the handler waits; a [transitionend] for another property
    or from another element changes nothing, the one for ["transform"] of
    ["c"] removes the listener and starts the settle step, whose completion
    is on a 200 ms timer. *)
Example releaseWorld_release :
  match moveEndHandleEvent (H:=boardUtils) dragEnv releaseWorld with
  | None => False
  | Some waiting =>
      length (listeners waiting) = 1%nat
      /\ timers waiting = []
      /\ (listeners <$> deliverTransitionEnd (H:=boardUtils) 3%nat
                          (mkTransitionEvent 3%nat "opacity") waiting)
         = Some (listeners waiting)
      /\ (timers <$> deliverTransitionEnd (H:=boardUtils) 3%nat
                       (mkTransitionEvent 3%nat "opacity") waiting)
         = Some []
      /\ (timers <$> deliverTransitionEnd (H:=boardUtils) 3%nat
                       (mkTransitionEvent 4%nat "transform") waiting)
         = Some []
      /\ (listeners <$> deliverTransitionEnd (H:=boardUtils) 3%nat
                          (mkTransitionEvent 3%nat "transform") waiting)
         = Some []
      /\ (timers <$> deliverTransitionEnd (H:=boardUtils) 3%nat
                       (mkTransitionEvent 3%nat "transform") waiting)
         = Some [(200, CompleteTask dragEnv 1%nat)]
  end.
Proof. vm_compute. repeat split; reflexivity. Qed.

(** ** Further facts about [src/dom.ts] *)

Lemma removeStyleProperties_lookup (keys : list string)
    (s : gmap string string) (k : string) :
  removeStyleProperties keys s !! k
  = if bool_decide (k ∈ keys) && negb (bool_decide (getPropertyValue k s = ""))
    then None else s !! k.
Proof.
  unfold removeStyleProperties. revert s.
  induction keys as [|a keys IH]; intros s; cbn [foldl].
  - by rewrite bool_decide_eq_false_2 by apply not_elem_of_nil.
  - rewrite IH. clear IH.
    destruct (decide (a = k)) as [->|Hak].
    + rewrite (bool_decide_eq_true_2 (k ∈ k :: keys)) by apply list_elem_of_here.
      cbn [andb]. case_decide as Hempty.
      * rewrite (bool_decide_eq_true_2 _ Hempty). cbn [negb].
        by destruct (bool_decide (k ∈ keys)).
      * rewrite (bool_decide_eq_false_2 _ Hempty). cbn [negb].
        unfold getPropertyValue. rewrite lookup_delete_eq. cbn [default].
        rewrite (bool_decide_eq_true_2 ("" = "")) by done. cbn [negb].
        by destruct (bool_decide (k ∈ keys)).
    + assert (bool_decide (k ∈ a :: keys) = bool_decide (k ∈ keys)) as ->.
      { apply bool_decide_ext. rewrite elem_of_cons.
        split; [by intros [->|?] | by right]. }
      case_decide as Hempty; [done|].
      unfold getPropertyValue. by rewrite !lookup_delete_ne.
Qed.

Lemma removeStyles_elements_same (node : NodeId) (keys : list string)
    (w : World) :
  style (elements (removeStyles node keys w) node)
  = removeStyleProperties keys (style (elements w node)).
Proof. unfold removeStyles. simpl. by rewrite fn_lookup_alter. Qed.

Lemma removeStyles_elements_other (node m : NodeId) (keys : list string)
    (w : World) :
  m <> node -> elements (removeStyles node keys w) m = elements w m.
Proof. intros Hm. unfold removeStyles. simpl. by rewrite fn_lookup_alter_ne. Qed.

Lemma removeStyleProperties_cleared (keys : list string)
    (s : gmap string string) (k : string) :
  k ∈ keys -> getPropertyValue k (removeStyleProperties keys s) = "".
Proof.
  intros Hk. unfold getPropertyValue at 1.
  rewrite removeStyleProperties_lookup, bool_decide_eq_true_2 by done.
  cbn [andb]. case_bool_decide as Hempty; cbn [negb]; [|done].
  apply Hempty.
Qed.

Lemma removeStyleProperties_idempotent (keys : list string)
    (s : gmap string string) :
  removeStyleProperties keys (removeStyleProperties keys s)
  = removeStyleProperties keys s.
Proof.
  apply map_eq. intros k.
  rewrite (removeStyleProperties_lookup keys (removeStyleProperties keys s)).
  destruct (decide (k ∈ keys)) as [Hk|Hk].
  - rewrite (bool_decide_eq_true_2 (_ = ""))
      by by apply removeStyleProperties_cleared.
    cbn [negb]. by rewrite andb_false_r.
  - by rewrite (bool_decide_eq_false_2 _ Hk).
Qed.

Lemma removeStyles_element_same (node : NodeId) (keys : list string)
    (w : World) :
  elements (removeStyles node keys w) node
  = set_style (removeStyleProperties keys (style (elements w node)))
      (elements w node).
Proof. unfold removeStyles. simpl. by rewrite fn_lookup_alter. Qed.

(** X2. After [removeStyles] every listed property of the element reads as
    the empty string, whether it was declared or not; the inline styles of
    the other elements are as before, and removing the same list again
    changes no inline style. *)
Theorem removeStyles_clears (node : NodeId) (keys : list string) (w : World) :
  let w' := removeStyles node keys w in
  (forall k, k ∈ keys ->
      getPropertyValue k (style (elements w' node)) = "")
  /\ (forall m, m <> node -> style (elements w' m) = style (elements w m))
  /\ forall m, style (elements (removeStyles node keys w') m)
               = style (elements w' m).
Proof.
  cbn zeta. split; [|split].
  - intros k Hk. rewrite removeStyles_elements_same.
    by apply removeStyleProperties_cleared.
  - intros m Hm. by rewrite removeStyles_elements_other.
  - intros m. destruct (decide (m = node)) as [->|Hm].
    + rewrite !removeStyles_elements_same.
      apply removeStyleProperties_idempotent.
    + by rewrite removeStyles_elements_other.
Qed.

Lemma find_first {A : Type} (f : A -> bool) (l : list A) (x : A) :
  List.find f l = Some x ->
  exists l1 l2, l = l1 ++ x :: l2 /\ f x = true
                /\ forall y, y ∈ l1 -> f y = false.
Proof.
  induction l as [|a l IH]; simpl; [done|].
  destruct (f a) eqn:Ha.
  - intros [= ->]. exists [], l. split; [done|]. split; [done|].
    by intros y ?%elem_of_nil.
  - intros Hfind. destruct (IH Hfind) as (l1 & l2 & -> & Hx & Hbefore).
    exists (a :: l1), l2. split; [done|]. split; [done|].
    intros y [->|Hy]%elem_of_cons; [done | by apply Hbefore].
Qed.

Lemma getActiveDraggableNode_found (w : World) (contextID : Z)
    (activeDraggableID : ID) (n : NodeId) :
  getActiveDraggableNode w contextID activeDraggableID = Some n ->
  n ∈ dndElements w
  /\ getAttribute w n CONTEXT_ID_ATTR = Some (pretty contextID)
  /\ getAttribute w n DRAGGABLE_ID_ATTR = Some activeDraggableID.
Proof.
  unfold getActiveDraggableNode. intros Hfind.
  apply List.find_some in Hfind as [Hin Hn].
  apply andb_true_iff in Hn as [Hc%bool_decide_eq_true Hd%bool_decide_eq_true].
  split; [by apply list_elem_of_In | done].
Qed.

Lemma getItemNodes_elem (w : World) (contextID : Z) (droppableID : ID)
    (n : NodeId) :
  n ∈ getItemNodes w contextID droppableID
  <-> n ∈ dndElements w
      /\ getAttribute w n CONTEXT_ID_ATTR = Some (pretty contextID)
      /\ getAttribute w n DROPPABLE_ID_ATTR = Some droppableID
      /\ is_Some (getAttribute w n DRAGGABLE_ID_ATTR).
Proof.
  unfold getItemNodes.
  rewrite list_elem_of_In, List.filter_In, <- list_elem_of_In.
  rewrite !andb_true_iff, !bool_decide_eq_true. tauto.
Qed.

Lemma findIndexFrom_range {A : Type} (p : A -> bool) (l : list A) (i : Z) :
  0 <= i ->
  findIndexFrom p l i = -1
  \/ (i <= findIndexFrom p l i < i + Z.of_nat (length l)
      /\ exists x, l !! Z.to_nat (findIndexFrom p l i - i) = Some x
                   /\ p x = true).
Proof.
  revert i. induction l as [|a l IH]; intros i Hi; simpl; [by left|].
  destruct (p a) eqn:Ha.
  - right. split; [lia|]. exists a. by rewrite Z.sub_diag.
  - destruct (IH (i + 1)) as [->|(Hrange & x & Hx & Hpx)]; [lia | by left |].
    right. split; [lia|]. exists x. split; [|done].
    replace (Z.to_nat (findIndexFrom p l (i + 1) - i))
      with (S (Z.to_nat (findIndexFrom p l (i + 1) - (i + 1)))) by lia.
    done.
Qed.

Lemma filter_excludes_length {A : Type} (P : A -> Prop)
    `{forall x, Decision (P x)} (l : list A) (x : A) :
  x ∈ l -> ~ P x -> (length (filter P l) < length l)%nat.
Proof.
  induction l as [|a l IH]; intros Hin Hx; [by apply elem_of_nil in Hin|].
  rewrite filter_cons. pose proof (length_filter P l) as Hle.
  apply elem_of_cons in Hin as [<-|Hin].
  - rewrite decide_False by done. simpl. lia.
  - specialize (IH Hin Hx). case_decide; simpl; lia.
Qed.

(** X6. The indices of the descriptor are in range: [sourceIdx] is -1 or the
    position of a node of the list that carries the dragged id,
    [destinationIdx] lies between 0 and the length of the list, and it is a
    position of the list whenever the dropped node is itself in the list. *)
Theorem dragEndDescriptor_bounds (env : DroppableEnv) (targetNode : NodeId)
    (w : World) :
  let d := dragEndDescriptor env targetNode w in
  let len := Z.of_nat (length (nodes env)) in
  (Descriptor.sourceIdx d = -1
   \/ (0 <= Descriptor.sourceIdx d < len
       /\ exists n,
            nodes env !! Z.to_nat (Descriptor.sourceIdx d) = Some n
            /\ detectIsActiveDraggableNode w n (activeDraggableID env) = true))
  /\ 0 <= Descriptor.destinationIdx d <= len
  /\ (targetNode ∈ nodes env -> Descriptor.destinationIdx d < len).
Proof.
  intros d len. split; [|split].
  - destruct (findIndexFrom_range
                (fun x => detectIsActiveDraggableNode w x
                            (activeDraggableID env)) (nodes env) 0)
      as [Hnone|(Hrange & n & Hn & Hdragged)]; [lia | by left |].
    right. rewrite Z.sub_0_r in Hn. split; [exact Hrange|]. by exists n.
  - change (Descriptor.destinationIdx d)
      with (countDestinationIdx w (direction env) targetNode (nodes env)).
    rewrite countDestinationIdx_count.
    pose proof (length_filter
      (fun n => trailingEdge (direction env) (getBoundingClientRect w n)
                < trailingEdge (direction env)
                    (getBoundingClientRect w targetNode)) (nodes env)).
    subst len. lia.
  - intros Hin.
    change (Descriptor.destinationIdx d)
      with (countDestinationIdx w (direction env) targetNode (nodes env)).
    rewrite countDestinationIdx_count.
    pose proof (filter_excludes_length
      (fun n => trailingEdge (direction env) (getBoundingClientRect w n)
                < trailingEdge (direction env)
                    (getBoundingClientRect w targetNode))
      (nodes env) targetNode Hin) as Hlt.
    subst len. cbv beta in Hlt. lia.
Qed.

(** X7. For ids that a quoted selector matches literally: when the node list
    is what [getItemNodes] finds for the container, a drop of an element
    that [getActiveDraggableNode] finds inside this container is not a move
    ([isMoving] is false and [sourceIdx] is an index), and a drop while no
    item of the container carries the dragged id is one ([isMoving] is true
    and [sourceIdx] is -1). *)
Theorem handleDragEnd_isMoving (env : DroppableEnv) (targetNode : NodeId)
    (w : World)
    (Hdraggable : selectorLiteral (activeDraggableID env) = true)
    (Hdroppable : selectorLiteral (droppableID env) = true)
    (Hnodes : nodes env = getItemNodes w (contextID env) (droppableID env)) :
  let d := dragEndDescriptor env targetNode w in
  (forall dragged,
      getActiveDraggableNode w (contextID env) (activeDraggableID env)
      = Some dragged ->
      getAttribute w dragged DROPPABLE_ID_ATTR = Some (droppableID env) ->
      Descriptor.isMoving d = false /\ 0 <= Descriptor.sourceIdx d)
  /\ ((forall n, n ∈ dndElements w ->
         getAttribute w n DROPPABLE_ID_ATTR = Some (droppableID env) ->
         getAttribute w n DRAGGABLE_ID_ATTR <> Some (activeDraggableID env)) ->
      Descriptor.isMoving d = true /\ Descriptor.sourceIdx d = -1).
Proof.
  intros d.
  set (isDragged x := detectIsActiveDraggableNode w x (activeDraggableID env)).
  assert (Descriptor.sourceIdx d = findIndexFrom isDragged (nodes env) 0)
    as Hsource by done.
  assert (Descriptor.isMoving d = bool_decide (Descriptor.sourceIdx d = -1))
    as Hmoving by done.
  split.
  - intros dragged Hfound Hcontainer.
    pose proof (getActiveDraggableNode_found w (contextID env)
                  (activeDraggableID env) dragged Hfound)
      as (Hin & Hcontext & Hid).
    assert (dragged ∈ nodes env) as Hitem.
    { rewrite Hnodes. apply getItemNodes_elem. by rewrite Hid. }
    assert (isDragged dragged = true) as Hdragged.
    { by apply bool_decide_eq_true. }
    destruct (findIndexFrom_range isDragged (nodes env) 0)
      as [Hnone|(Hrange & _)]; [lia | |].
    + pose proof (findIndexFrom_found isDragged (nodes env) 0
                    ltac:(lia) Hnone dragged Hitem). congruence.
    + rewrite Hmoving, Hsource. split; [|lia].
      apply bool_decide_eq_false. lia.
  - intros Hnone.
    assert (Descriptor.sourceIdx d = -1) as Hminus.
    { rewrite Hsource. apply findIndexFrom_none. intros x Hx.
      rewrite Hnodes in Hx. apply getItemNodes_elem in Hx
        as (Hin & _ & Hcontainer & _).
      apply bool_decide_eq_false. by apply Hnone. }
    split; [|done]. rewrite Hmoving. by apply bool_decide_eq_true.
Qed.

Lemma handleDragEnd_isMoving_witness :
  selectorLiteral (activeDraggableID dropEnv) = true
  /\ selectorLiteral (droppableID dropEnv) = true
  /\ nodes dropEnv
     = getItemNodes dropWorld (contextID dropEnv) (droppableID dropEnv)
  /\ Descriptor.isMoving (dragEndDescriptor dropEnv 1%nat dropWorld) = false.
Proof.
  split; [reflexivity|]. split; [reflexivity|]. split; [reflexivity|].
  exact (proj1 (proj1 (handleDragEnd_isMoving dropEnv 1%nat dropWorld
                         eq_refl eq_refl eq_refl)
                  1%nat eq_refl eq_refl)).
Defined.

(** X8. With a viewport of non-negative extent the thresholds are never
    negative; each is the rectangle's edge, 0 or the viewport extent; a
    positive edge is used whatever the pointer is. *)
Theorem getThreshold_bounds (win : Window) (rect : DOMRect) (pointer : Pointer)
    (Hheight : 0 <= innerHeight win) (Hwidth : 0 <= innerWidth win) :
  let t := getThreshold win rect pointer in
  0 <= thresholdY t /\ 0 <= thresholdX t
  /\ (thresholdY t = top rect \/ thresholdY t = 0
      \/ thresholdY t = innerHeight win)
  /\ (thresholdX t = left rect \/ thresholdX t = 0
      \/ thresholdX t = innerWidth win)
  /\ (0 < top rect -> forall pointer',
        thresholdY (getThreshold win rect pointer') = top rect)
  /\ (0 < left rect -> forall pointer',
        thresholdX (getThreshold win rect pointer') = left rect).
Proof.
  unfold getThreshold, thresholdY, thresholdX. cbn [fst snd].
  repeat split.
  - destruct (Z.ltb_spec 0 (top rect)); [lia|]. destruct (_ <? _); lia.
  - destruct (Z.ltb_spec 0 (left rect)); [lia|]. destruct (_ <? _); lia.
  - destruct (0 <? top rect); [by left|]. destruct (_ <? _); auto.
  - destruct (0 <? left rect); [by left|]. destruct (_ <? _); auto.
  - intros Hpos pointer'. by apply Z.ltb_lt in Hpos as ->.
  - intros Hpos pointer'. by apply Z.ltb_lt in Hpos as ->.
Qed.

Lemma getThreshold_bounds_witness :
  0 <= thresholdY (getThreshold (mkWindow 1000 800) (mkRect (-5) 30 0 0)
                     (mkPointer 10 700)).
Proof.
  apply (getThreshold_bounds (mkWindow 1000 800) (mkRect (-5) 30 0 0)
           (mkPointer 10 700)); by vm_compute.
Defined.

Lemma setProperty_style (node : NodeId) (name value : string) (w : World) :
  style (elements (setProperty node name value w) node)
  = <[name := value]> (style (elements w node)).
Proof. unfold setProperty. simpl. by rewrite fn_lookup_alter. Qed.

Lemma removeProperty_style (node : NodeId) (name : string) (w : World) :
  style (elements (removeProperty node name w) node)
  = delete name (style (elements w node)).
Proof. unfold removeProperty. simpl. by rewrite fn_lookup_alter. Qed.

Lemma callRestoreScroll_style (r : RestoreScroll) (w : World) (k : string) :
  getPropertyValue k (style (elements (callRestoreScroll r w) (restoreNode r)))
  = if decide (k = "overflow") then overflowValue r
    else getPropertyValue k (style (elements w (restoreNode r))).
Proof.
  unfold callRestoreScroll, getPropertyValue.
  case_decide as Hempty; [rewrite removeProperty_style
                         | rewrite setProperty_style];
    case_decide as Hk; subst.
  - by rewrite lookup_delete_eq, Hempty.
  - by rewrite lookup_delete_ne.
  - by rewrite lookup_insert_eq.
  - by rewrite lookup_insert_ne.
Qed.

Lemma callRestoreScroll_other (r : RestoreScroll) (w : World) (m : NodeId) :
  m <> restoreNode r -> elements (callRestoreScroll r w) m = elements w m.
Proof.
  intros Hm. unfold callRestoreScroll, removeProperty, setProperty.
  case_decide; simpl; by rewrite fn_lookup_alter_ne.
Qed.

(** X9. On an element whose inline style declares neither [all] nor any
    other property that mentions [overflow] (a longhand such as
    [overflow-x]), [blockScroll] declares [overflow: hidden] and leaves the
    declarations of the properties that do not mention [overflow] alone;
    calling the closure it returns brings every property of the element
    back to the value it read before (an [overflow] that was not declared
    is removed again), and the inline style of no other element is ever
    changed. *)
Theorem blockScroll_restores (node : NodeId) (w : World)
    (Hapart : declaresApart ["overflow"] (style (elements w node))) :
  let blocked := (blockScroll node w).1 in
  let restored := callRestoreScroll (blockScroll node w).2 blocked in
  getPropertyValue "overflow" (style (elements blocked node)) = "hidden"
  /\ (forall k, includes "overflow" k = false ->
        style (elements blocked node) !! k = style (elements w node) !! k)
  /\ (forall k,
        getPropertyValue k (style (elements restored node))
        = getPropertyValue k (style (elements w node)))
  /\ (style (elements w node) !! "overflow" = None ->
      style (elements restored node) = style (elements w node))
  /\ forall m, m <> node ->
       style (elements blocked m) = style (elements w m)
       /\ style (elements restored m) = style (elements w m).
Proof.
  cbv zeta. unfold blockScroll. cbn [fst snd].
  split; [|split; [|split; [|split]]].
  - unfold getPropertyValue. by rewrite setProperty_style, lookup_insert_eq.
  - intros k Hk. rewrite setProperty_style, lookup_insert_ne; [done|].
    intros <-. by vm_compute in Hk.
  - intros k.
    rewrite (callRestoreScroll_style
               (mkRestoreScroll node
                  (getPropertyValue "overflow" (style (elements w node))))).
    cbn [restoreNode overflowValue]. case_decide as Hk; [by subst|].
    unfold getPropertyValue. by rewrite setProperty_style, lookup_insert_ne.
  - intros Hnone. unfold callRestoreScroll, getPropertyValue.
    cbn [restoreNode overflowValue]. rewrite Hnone. cbn [default].
    rewrite decide_True by done.
    rewrite removeProperty_style, setProperty_style.
    rewrite delete_insert_eq. by apply delete_id.
  - intros m Hm. split.
    + unfold setProperty. simpl. by rewrite fn_lookup_alter_ne.
    + rewrite callRestoreScroll_other by done.
      unfold setProperty. simpl. by rewrite fn_lookup_alter_ne.
Qed.

Lemma blockScroll_restores_witness :
  declaresApart ["overflow"] (style (elements dropWorld 0%nat))
  /\ getPropertyValue "overflow"
       (style (elements (blockScroll 0%nat dropWorld).1 0%nat)) = "hidden".
Proof.
  assert (declaresApart ["overflow"] (style (elements dropWorld 0%nat)))
    as Hapart.
  { split; [reflexivity|]. intros k name _ _ _. reflexivity. }
  split; [exact Hapart|].
  exact (proj1 (blockScroll_restores 0%nat dropWorld Hapart)).
Defined.

(** X10. On an element whose inline style declares neither [all] nor any
    other property that mentions [overflow], two nested blocks undo each
    other only in reverse order: restoring the inner block and then the
    outer one gives back the original values, whereas restoring the outer
    block first leaves [overflow: hidden] behind. *)
Theorem blockScroll_nested (node : NodeId) (w : World)
    (Hapart : declaresApart ["overflow"] (style (elements w node))) :
  let outer := blockScroll node w in
  let inner := blockScroll node outer.1 in
  (forall k,
      getPropertyValue k
        (style (elements (callRestoreScroll outer.2
                            (callRestoreScroll inner.2 inner.1)) node))
      = getPropertyValue k (style (elements w node)))
  /\ getPropertyValue "overflow"
       (style (elements (callRestoreScroll inner.2
                           (callRestoreScroll outer.2 inner.1)) node))
     = "hidden".
Proof.
  cbv zeta. unfold blockScroll. cbn [fst snd]. split.
  - intros k.
    rewrite (callRestoreScroll_style
               (mkRestoreScroll node
                  (getPropertyValue "overflow" (style (elements w node))))).
    cbn [restoreNode overflowValue]. case_decide as Hk; [by subst|].
    rewrite (callRestoreScroll_style
               (mkRestoreScroll node
                  (getPropertyValue "overflow"
                     (style (elements (setProperty node "overflow" "hidden" w)
                               node))))).
    cbn [restoreNode overflowValue]. rewrite decide_False by done.
    unfold getPropertyValue. by rewrite !setProperty_style, !lookup_insert_ne.
  - rewrite (callRestoreScroll_style
               (mkRestoreScroll node
                  (getPropertyValue "overflow"
                     (style (elements (setProperty node "overflow" "hidden" w)
                               node))))).
    cbn [restoreNode overflowValue]. rewrite decide_True by done.
    unfold getPropertyValue. by rewrite setProperty_style, lookup_insert_eq.
Qed.

Lemma blockScroll_nested_witness :
  declaresApart ["overflow"] (style (elements dropWorld 0%nat))
  /\ getPropertyValue "overflow"
       (style
          (elements
             (callRestoreScroll
                (blockScroll 0%nat (blockScroll 0%nat dropWorld).1).2
                (callRestoreScroll (blockScroll 0%nat dropWorld).2
                   (blockScroll 0%nat (blockScroll 0%nat dropWorld).1).1))
             0%nat))
     = "hidden".
Proof.
  assert (declaresApart ["overflow"] (style (elements dropWorld 0%nat)))
    as Hapart.
  { split; [reflexivity|]. intros k name _ _ _. reflexivity. }
  split; [exact Hapart|].
  exact (proj2 (blockScroll_nested 0%nat dropWorld Hapart)).
Defined.

Lemma scrollParentLoop_find (w : World) (layout : NodeId -> ScrollStyle)
    (excludeStaticParent : bool) (n : NodeId) (chain : list NodeId)
    (fuel : nat) :
  ancestors w n chain -> (length chain < fuel)%nat ->
  scrollParentLoop fuel w layout excludeStaticParent n
  = Some (List.find (scrollCandidate layout excludeStaticParent) chain).
Proof.
  intros Hchain. revert fuel.
  induction Hchain as [n Htop|n p chain Hparent Hchain IH]; intros fuel Hfuel;
    (destruct fuel as [|fuel]; [simpl in Hfuel; lia|]); simpl.
  - by rewrite Htop.
  - rewrite Hparent. unfold scrollCandidate at 1.
    destruct (excludeStaticParent && _); cbn [negb andb].
    + apply IH. simpl in Hfuel. lia.
    + destruct (overflowRegexTest (layout p)); [done|].
      apply IH. simpl in Hfuel. lia.
Qed.

(** X11. Given enough iterations for the element's chain of ancestors,
    [getScrollContainer] returns the body for a fixed element and otherwise
    the nearest ancestor whose overflow values mention [auto] or [scroll]
    (static ancestors being passed over when the element is absolutely
    positioned), or the body when there is none; the element itself is
    returned only by [getScrollContainerFromContainer], when its own
    overflow values match. *)
Theorem getScrollContainer_nearest (fuel : nat) (w : World)
    (layout : NodeId -> ScrollStyle) (body node : NodeId)
    (chain : list NodeId)
    (Hchain : ancestors w node chain) (Hfuel : (length chain < fuel)%nat) :
  let excludeStaticParent :=
    bool_decide (position (layout node) = "absolute") in
  let found := List.find (scrollCandidate layout excludeStaticParent) chain in
  let container :=
    if bool_decide (position (layout node) = "fixed") then body
    else default body found in
  getScrollContainer fuel w layout body node = Some container
  /\ (container = body
      \/ exists l1 l2,
           chain = l1 ++ container :: l2
           /\ overflowRegexTest (layout container) = true
           /\ forall p, p ∈ l1 ->
                scrollCandidate layout excludeStaticParent p = false)
  /\ getScrollContainerFromContainer fuel w layout body node
     = Some (if overflowRegexTest (layout node) then node else container).
Proof.
  intros excludeStaticParent found container.
  assert (getScrollContainer fuel w layout body node = Some container)
    as Hresult.
  { unfold getScrollContainer. fold excludeStaticParent. subst container.
    destruct (bool_decide (position (layout node) = "fixed")); [done|].
    rewrite (scrollParentLoop_find w layout excludeStaticParent node chain)
      by done.
    fold found. by destruct found. }
  split; [done|]. split.
  - subst container.
    destruct (bool_decide (position (layout node) = "fixed")); [by left|].
    subst found. destruct (List.find _ chain) as [p|] eqn:Hfind; [|by left].
    right. destruct (find_first _ _ _ Hfind) as (l1 & l2 & -> & Hp & Hbefore).
    exists l1, l2. split; [done|]. split; [|done].
    unfold scrollCandidate in Hp. by apply andb_true_iff in Hp as [_ Hp].
  - unfold getScrollContainerFromContainer. rewrite Hresult.
    by destruct (overflowRegexTest (layout node)).
Qed.

Lemma getScrollContainer_nearest_witness :
  getScrollContainer 4 pageWorld pageLayout 9%nat 1%nat = Some 8%nat.
Proof.
  exact (proj1 (getScrollContainer_nearest 4 pageWorld pageLayout 9%nat 1%nat
                  [0; 8; 9]%nat
                  (ancestors_up pageWorld 1%nat 0%nat _ eq_refl
                     (ancestors_up pageWorld 0%nat 8%nat _ eq_refl
                        (ancestors_up pageWorld 8%nat 9%nat _ eq_refl
                           (ancestors_top pageWorld 9%nat eq_refl))))
                  (le_n 4))).
Defined.

(** ** Further facts about [src/droppable.tsx] *)

Lemma onlyElementsDiffer_refl (w : World) : onlyElementsDiffer w w.
Proof. by repeat split. Qed.

Lemma onlyElementsDiffer_trans (w1 w2 w3 : World) :
  onlyElementsDiffer w1 w2 -> onlyElementsDiffer w2 w3 ->
  onlyElementsDiffer w1 w3.
Proof.
  unfold onlyElementsDiffer.
  intros (-> & -> & -> & -> & -> & -> & -> & -> & -> & ->) H23. exact H23.
Qed.

Lemma set_elements_differ (f : NodeId -> Element) (w : World) :
  onlyElementsDiffer w (set_elements f w).
Proof. by repeat split. Qed.

Lemma passStep_differ `{Utils} (env : DroppableEnv) (target : NodeId)
    (pointer : Pointer) (w : World) (p : Pass) (n : NodeId) :
  onlyElementsDiffer (passWorld p)
    (passWorld (passStep env target pointer w p n)).
Proof.
  unfold passStep. destruct (detectIsActiveDraggableNode _ _ _);
    [apply onlyElementsDiffer_refl|].
  rewrite runShiftFn_unfold.
  destruct (_ <=? _); [apply set_elements_differ|].
  destruct (belowMinimalDiff _ _); apply set_elements_differ.
Qed.

Lemma pass_differ `{Utils} (env : DroppableEnv) (target : NodeId)
    (pointer : Pointer) (w : World) (ns : list NodeId) (p : Pass) :
  onlyElementsDiffer (passWorld p)
    (passWorld (foldl (passStep env target pointer w) p ns)).
Proof.
  revert p. induction ns as [|n ns IH]; intros p; cbn [foldl].
  - apply onlyElementsDiffer_refl.
  - eapply onlyElementsDiffer_trans; [apply passStep_differ | apply IH].
Qed.

(** X12. A reorder pass writes inline styles of listed siblings and nothing
    else: the listeners, timers, registry, call log and every other part of
    the state beside the elements are as before, every element keeps its
    attributes (the [style] attribute apart), its parent and its children,
    and the inline style of an element that is not in the node list, or
    that is the dragged one, is not touched. *)
Theorem reorderPass_frame `{Utils} (env : DroppableEnv) (target : NodeId)
    (pointer : Pointer) (w : World) :
  let w' := passWorld (reorderPass env target pointer w) in
  onlyElementsDiffer w w'
  /\ (forall m,
        (forall name, name <> "style" ->
           getAttribute w' m name = getAttribute w m name)
        /\ parentElement (elements w' m) = parentElement (elements w m)
        /\ childNodes (elements w' m) = childNodes (elements w m))
  /\ (forall m, m ∉ nodes env -> style (elements w' m) = style (elements w m))
  /\ (forall m,
        detectIsActiveDraggableNode w m (activeDraggableID env) = true ->
        style (elements w' m) = style (elements w m)).
Proof.
  cbv zeta. rewrite reorderPass_fused. split; [|split; [|split]].
  - apply (pass_differ env target pointer w (nodes env) (mkPass w None None)).
  - intros m. unfold getAttribute. rewrite pass_elements. cbn [passWorld].
    destruct (_ && _); [|done].
    unfold restyle. by destruct (_ <=? _).
  - intros m Hm. rewrite pass_elements. cbn [passWorld].
    by rewrite (bool_decide_eq_false_2 _ Hm).
  - intros m Hm. rewrite pass_elements. cbn [passWorld].
    rewrite Hm. cbn [negb]. by rewrite andb_false_r.
Qed.

Lemma clearShiftStyles_elements (ns : list NodeId) (w : World) (m : NodeId) :
  elements (clearShiftStyles ns w) m
  = if bool_decide (m ∈ ns)
    then set_style
           (removeStyleProperties ["transition"; "transform"]
              (style (elements w m))) (elements w m)
    else elements w m.
Proof.
  unfold clearShiftStyles. revert w.
  induction ns as [|n ns IH]; intros w; cbn [foldl].
  - by rewrite bool_decide_eq_false_2 by apply not_elem_of_nil.
  - rewrite IH. destruct (decide (m = n)) as [->|Hmn].
    + rewrite (bool_decide_eq_true_2 (n ∈ n :: ns)) by apply list_elem_of_here.
      rewrite removeStyles_element_same.
      destruct (elements w n) as [a r c s pa ch].
      unfold set_style. cbn [attributes boundingClientRect computedStyle style
                               parentElement childNodes].
      case_bool_decide; [|done].
      by rewrite removeStyleProperties_idempotent.
    + rewrite removeStyles_elements_other by done.
      assert (bool_decide (m ∈ n :: ns) = bool_decide (m ∈ ns)) as ->; [|done].
      apply bool_decide_ext. rewrite elem_of_cons.
      split; [by intros [->|?] | by right].
Qed.

Lemma clearShiftStyles_differ (ns : list NodeId) (w : World) :
  onlyElementsDiffer w (clearShiftStyles ns w).
Proof.
  unfold clearShiftStyles. revert w.
  induction ns as [|n ns IH]; intros w; cbn [foldl].
  - apply onlyElementsDiffer_refl.
  - eapply onlyElementsDiffer_trans; [|apply IH]. apply set_elements_differ.
Qed.

Lemma removeStyleProperties_undeclared (keys : list string)
    (s : gmap string string) :
  (forall k, k ∈ keys -> s !! k = None) -> removeStyleProperties keys s = s.
Proof.
  intros Hnone. apply map_eq. intros k. rewrite removeStyleProperties_lookup.
  destruct (decide (k ∈ keys)) as [Hk|Hk].
  - unfold getPropertyValue. rewrite (Hnone k Hk). cbn [default].
    rewrite (bool_decide_eq_true_2 ("" = "")) by done. cbn [negb].
    by destruct (bool_decide _).
  - by rewrite (bool_decide_eq_false_2 _ Hk).
Qed.

(** X13. Clearing undoes a pass.  If before a reorder pass no listed node
    declares [transform], [transition], [all] or any other property that
    mentions [transform] or [transition] (a longhand such as
    [transition-duration]), then removing the two properties from every
    listed node, as the timer of [handleDragEnd] does, gives every element
    its inline style back exactly as it was before the pass, and changes
    nothing beside the elements. *)
Theorem reorderPass_cleared `{Utils} (env : DroppableEnv) (target : NodeId)
    (pointer : Pointer) (w : World)
    (Hclean : forall n, n ∈ nodes env ->
                style (elements w n) !! "transform" = None
                /\ style (elements w n) !! "transition" = None
                /\ declaresApart ["transform"; "transition"]
                     (style (elements w n))) :
  let shifted := passWorld (reorderPass env target pointer w) in
  let cleared := clearShiftStyles (nodes env) shifted in
  (forall m, style (elements cleared m) = style (elements w m))
  /\ onlyElementsDiffer w cleared.
Proof.
  cbv zeta. split.
  - intros m. rewrite clearShiftStyles_elements.
    destruct (decide (m ∈ nodes env)) as [Hm|Hm].
    + rewrite (bool_decide_eq_true_2 _ Hm).
      destruct (Hclean m Hm) as (Htf & Htr & _).
      rewrite reorderPass_fused, pass_elements. cbn [passWorld].
      rewrite (bool_decide_eq_true_2 _ Hm). cbn [andb].
      destruct (detectIsActiveDraggableNode w m (activeDraggableID env));
        cbn [negb].
      * rewrite removeStyleProperties_undeclared; [by destruct (elements w m)|].
        intros k [->|[->|[]%elem_of_nil]%elem_of_cons]%elem_of_cons; done.
      * unfold restyle.
        destruct (elements w m) as [a r c s pa ch] eqn:Hel.
        cbn [style] in Htf, Htr.
        destruct (_ <=? _); unfold set_style;
          cbn [attributes boundingClientRect computedStyle style
                 parentElement childNodes].
        -- destruct (shiftStyles_lookup env s) as (Hstr & Hstf & Hother).
           apply map_eq. intros k. rewrite removeStyleProperties_lookup.
           destruct (decide (k = "transition")) as [->|Hk1].
           { rewrite bool_decide_eq_true_2 by apply list_elem_of_here.
             unfold getPropertyValue. rewrite Hstr. cbn [default andb].
             rewrite bool_decide_eq_false_2 by done. by rewrite Htr. }
           destruct (decide (k = "transform")) as [->|Hk2].
           { rewrite (bool_decide_eq_true_2 ("transform" ∈ _))
               by (apply list_elem_of_further, list_elem_of_here).
             unfold getPropertyValue. rewrite Hstf. cbn [default andb].
             rewrite bool_decide_eq_false_2 by (by destruct (direction env)).
             by rewrite Htf. }
           rewrite (bool_decide_eq_false_2 (k ∈ _)).
           ++ cbn [andb]. by apply Hother.
           ++ intros [->|[->|[]%elem_of_nil]%elem_of_cons]%elem_of_cons; done.
        -- rewrite (removeStyleProperties_undeclared ["transform"] s).
           ++ apply removeStyleProperties_undeclared.
              intros k [->|[->|[]%elem_of_nil]%elem_of_cons]%elem_of_cons;
                done.
           ++ by intros k ->%list_elem_of_singleton.
    + rewrite (bool_decide_eq_false_2 _ Hm).
      rewrite reorderPass_fused, pass_elements. cbn [passWorld].
      by rewrite (bool_decide_eq_false_2 _ Hm).
  - eapply onlyElementsDiffer_trans; [|apply clearShiftStyles_differ].
    rewrite reorderPass_fused.
    apply (pass_differ env target pointer w (nodes env) (mkPass w None None)).
Qed.

Lemma dragWorld_clean (n : NodeId) :
  n ∈ nodes dragEnv ->
  style (elements dragWorld n) !! "transform" = None
  /\ style (elements dragWorld n) !! "transition" = None
  /\ declaresApart ["transform"; "transition"] (style (elements dragWorld n)).
Proof.
  intros Hn.
  repeat (apply elem_of_cons in Hn as [->|Hn];
          [split; [reflexivity|]; split; [reflexivity|];
           split; [reflexivity|]; intros k name _ _ _; reflexivity|]).
  by apply elem_of_nil in Hn.
Qed.

Lemma reorderPass_cleared_witness :
  style
    (elements
       (clearShiftStyles (nodes dragEnv)
          (passWorld (reorderPass (H:=boardUtils) dragEnv 1%nat
                        (mkPointer 10 70) dragWorld))) 4%nat)
  = style (elements dragWorld 4%nat).
Proof.
  exact (proj1 (reorderPass_cleared (H:=boardUtils) dragEnv 1%nat
                  (mkPointer 10 70) dragWorld dragWorld_clean) 4%nat).
Defined.

Lemma removeChild_style (parent child : NodeId) (w : World) (n : NodeId) :
  style (elements (removeChild parent child w) n) = style (elements w n).
Proof.
  unfold removeChild. simpl.
  destruct (decide (child = n)) as [->|Hc];
    [rewrite fn_lookup_alter | rewrite fn_lookup_alter_ne by done];
    (destruct (decide (parent = n)) as [->|Hp];
     [rewrite fn_lookup_alter | rewrite fn_lookup_alter_ne by done]); done.
Qed.

Lemma callRemovePlaceholder_result (w w' : World) :
  callRemovePlaceholder w = Some w' ->
  removePlaceholder w' = NoopRemove
  /\ calls w' = calls w /\ timers w' = timers w
  /\ listeners w' = listeners w
  /\ forall n, style (elements w' n) = style (elements w n).
Proof.
  unfold callRemovePlaceholder.
  destruct (removePlaceholder w) as [|placeholder] eqn:Hscope.
  - intros [= <-]. by repeat split.
  - destruct (parentElement _) as [parent|]; [|done].
    intros [= <-]. repeat split. intros n. simpl. apply removeChild_style.
Qed.

(** X14. The timer of [handleDragEnd].  It fails exactly when the placeholder
    closure is still installed and its filler has no parent.  When it runs,
    every listed node reads neither [transform] nor [transition] any
    longer, the inline style of an element outside the list is as before,
    the removal operation is the no-op, and [resetState] has been called
    once, last. *)
Theorem dragEndCleanup_clears (env : DroppableEnv) (w : World) :
  (runTask (DragEndCleanupTask env) w = None
   <-> exists placeholder,
         removePlaceholder w = DetachPlaceholder placeholder
         /\ parentElement (elements w placeholder) = None)
  /\ forall w',
       runTask (DragEndCleanupTask env) w = Some w' ->
       (forall n, n ∈ nodes env ->
           getPropertyValue "transform" (style (elements w' n)) = ""
           /\ getPropertyValue "transition" (style (elements w' n)) = "")
       /\ (forall n, n ∉ nodes env ->
             style (elements w' n) = style (elements w n))
       /\ removePlaceholder w' = NoopRemove
       /\ calls w' = calls w ++ [CallResetState]
       /\ timers w' = timers w.
Proof.
  split.
  - unfold runTask, callRemovePlaceholder.
    destruct (removePlaceholder w) as [|placeholder]; [split; [done|]|].
    + by intros (? & ? & _).
    + destruct (parentElement (elements w placeholder)) as [parent|] eqn:Hp.
      * split; [done|]. intros (p & [= <-] & Hnone). congruence.
      * split; [|done]. intros _. by exists placeholder.
  - intros w' Hrun. unfold runTask in Hrun.
    destruct (callRemovePlaceholder w) as [w1|] eqn:Hremove; [|done].
    injection Hrun as <-.
    destruct (callRemovePlaceholder_result w w1 Hremove)
      as (Hscope & Hcalls & Htimers & _ & Hstyle).
    fold (clearShiftStyles (nodes env) w1).
    destruct (clearShiftStyles_differ (nodes env) w1)
      as (_ & _ & _ & _ & _ & _ & Htimers' & Hscope' & _ & Hcalls').
    assert (forall n,
              style (elements (logCall CallResetState
                                 (clearShiftStyles (nodes env) w1)) n)
              = if bool_decide (n ∈ nodes env)
                then removeStyleProperties ["transition"; "transform"]
                       (style (elements w n))
                else style (elements w n)) as Hresult.
    { intros n. change (elements (logCall ?c ?w0)) with (elements w0).
      rewrite clearShiftStyles_elements, <- Hstyle.
      by destruct (bool_decide _), (elements w1 n). }
    split; [|split; [|split; [|split]]].
    + intros n Hn. rewrite Hresult, (bool_decide_eq_true_2 _ Hn).
      split; apply removeStyleProperties_cleared;
        [apply list_elem_of_further|]; apply list_elem_of_here.
    + intros n Hn. by rewrite Hresult, (bool_decide_eq_false_2 _ Hn).
    + change (removePlaceholder (logCall ?c ?w0)) with (removePlaceholder w0).
      by rewrite Hscope'.
    + change (calls (logCall ?c ?w0)) with (calls w0 ++ [c]).
      by rewrite Hcalls', Hcalls.
    + change (timers (logCall ?c ?w0)) with (timers w0).
      by rewrite Htimers'.
Qed.

Lemma filter_ne_absent {A : Type} `{EqDecision A} (x : A) (l : list A) :
  x ∉ l -> List.filter (fun y => negb (bool_decide (y = x))) l = l.
Proof.
  induction l as [|a l IH]; intros Hx; simpl; [done|].
  apply not_elem_of_cons in Hx as [Hne Hx].
  rewrite bool_decide_eq_false_2 by done. simpl. by rewrite IH.
Qed.

Lemma filter_filter_twice {A : Type} (f g : A -> bool) (l : list A) :
  List.filter f (List.filter g (List.filter f (List.filter g l)))
  = List.filter f (List.filter g l).
Proof.
  induction l as [|a l IH]; simpl; [done|].
  destruct (g a) eqn:Hg; simpl; [|done].
  destruct (f a) eqn:Hf; simpl; [|done].
  rewrite Hg. simpl. rewrite Hf. by rewrite IH.
Qed.

Lemma filter_both_app {A : Type} `{EqDecision A} (a b : A) (l extra : list A) :
  a ∉ l -> b ∉ l -> (forall x, x ∈ extra -> x = a \/ x = b) ->
  List.filter (fun y => negb (bool_decide (y = b)))
    (List.filter (fun y => negb (bool_decide (y = a))) (l ++ extra))
  = l.
Proof.
  intros Ha Hb Hextra.
  rewrite !List.filter_app, (filter_ne_absent a l), (filter_ne_absent b l)
    by done.
  rewrite <- (app_nil_r l) at 2. f_equal.
  induction extra as [|x extra IH]; simpl; [done|].
  destruct (Hextra x) as [->| ->]; [apply list_elem_of_here| |].
  - rewrite bool_decide_eq_true_2 by done. simpl.
    apply IH. intros y Hy. apply Hextra. by apply list_elem_of_further.
  - destruct (bool_decide (b = a)); simpl;
      rewrite ?bool_decide_eq_true_2 by done; simpl;
      apply IH; intros y Hy; apply Hextra; by apply list_elem_of_further.
Qed.

Lemma addEventListener_appends (target : EventTarget) (type : string)
    (cb : Callback) (w : World) :
  exists extra,
    listeners (addEventListener target type cb w) = listeners w ++ extra
    /\ forall x, x ∈ extra -> x = mkListener target type cb.
Proof.
  unfold addEventListener. case_decide.
  - exists []. split; [by rewrite app_nil_r | by intros x ?%elem_of_nil].
  - exists [mkListener target type cb]. split; [done|].
    by intros x ->%list_elem_of_singleton.
Qed.

(** X15. An unsubscriber can be called again at any time: the second call
    removes nothing more, and a call never adds a listener or touches the
    registry. *)
Theorem callUnsubscriber_idempotent (u : Unsubscriber) (w : World) :
  listeners (callUnsubscriber u (callUnsubscriber u w))
  = listeners (callUnsubscriber u w)
  /\ (forall l, l ∈ listeners (callUnsubscriber u w) -> l ∈ listeners w)
  /\ unsubscribers (callUnsubscriber u w) = unsubscribers w.
Proof.
  split; [|split].
  - unfold callUnsubscriber, removeEventListener. simpl.
    apply filter_filter_twice.
  - intros l Hl. by apply callUnsubscriber_elem in Hl as [Hl _].
  - done.
Qed.

Lemma subscribe_nextCallback (types : string * string) (w : World) :
  nextCallback (subscribe types w) = S (nextCallback w).
Proof.
  unfold subscribe, addEventListener. by repeat case_decide.
Qed.

(** X16. A sensor effect and its cleanup.  In a state whose listeners carry only
    stamps already issued, mounting adds the new handler for its two event
    types and pushes its unsubscriber; running that unsubscriber (the
    effect's cleanup) gives back the listeners as they were before the
    mount, while the registry keeps the unsubscriber: only a release drains
    it. *)
Theorem subscribe_cleanup (types : string * string) (w : World)
    (Hfresh : freshCallbacks w) :
  let handleEvent := SensorHandler (nextCallback w) in
  let unsubscribe := mkUnsubscriber types handleEvent in
  let mounted := subscribe types w in
  (forall l, l ∈ listeners mounted
             <-> l ∈ listeners w
                 \/ l = mkListener DocumentTarget types.1 handleEvent
                 \/ l = mkListener DocumentTarget types.2 handleEvent)
  /\ unsubscribers mounted = unsubscribers w ++ [unsubscribe]
  /\ listeners (callUnsubscriber unsubscribe mounted) = listeners w
  /\ unsubscribers (callUnsubscriber unsubscribe mounted)
     = unsubscribers w ++ [unsubscribe]
  /\ freshCallbacks mounted.
Proof.
  intros handleEvent unsubscribe mounted.
  assert (forall type, mkListener DocumentTarget type handleEvent
                       ∉ listeners w) as Hnew.
  { intros type Hin. specialize (Hfresh _ Hin). simpl in Hfresh. lia. }
  split; [apply subscribe_elem|]. split; [apply subscribe_unsubscribers|].
  split; [|split; [apply subscribe_unsubscribers|]].
  - unfold callUnsubscriber, removeEventListener.
    cbn [listeners set_listeners logCall set_calls unsubTypes unsubHandler].
    subst mounted. unfold subscribe.
    cbn [listeners set_unsubscribers].
    destruct (addEventListener_appends DocumentTarget types.1 handleEvent
                (set_nextCallback (S (nextCallback w)) w))
      as (e1 & He1 & Hin1).
    destruct (addEventListener_appends DocumentTarget types.2 handleEvent
                (addEventListener DocumentTarget types.1 handleEvent
                   (set_nextCallback (S (nextCallback w)) w)))
      as (e2 & He2 & Hin2).
    fold handleEvent. rewrite He2, He1.
    cbn [listeners set_nextCallback].
    rewrite <- app_assoc. apply filter_both_app; [apply Hnew | apply Hnew |].
    intros x [Hx|Hx]%elem_of_app; [left; by apply Hin1 | right; by apply Hin2].
  - intros l Hl. subst mounted. rewrite subscribe_nextCallback.
    apply subscribe_elem in Hl as [Hl|[->| ->]].
    + specialize (Hfresh l Hl). destruct (listenerCallback l); lia.
    + simpl. lia.
    + simpl. lia.
Qed.

Lemma boardWorld_fresh (els : list Element) : freshCallbacks (boardWorld els).
Proof. by intros l ?%elem_of_nil. Qed.

Lemma subscribe_cleanup_witness :
  freshCallbacks dragWorld
  /\ listeners
       (callUnsubscriber
          (mkUnsubscriber ("mousemove", "touchmove") (SensorHandler 0))
          (subscribe ("mousemove", "touchmove") dragWorld))
     = listeners dragWorld.
Proof.
  split; [apply boardWorld_fresh|].
  exact (proj1 (proj2 (proj2
    (subscribe_cleanup ("mousemove", "touchmove") dragWorld
       (boardWorld_fresh _))))).
Defined.

(** X17. A container that is disabled, or whose group is not the active one,
    takes no part in the drag: it is neither active nor dragging, it mounts
    no move and no release sensor, inserts no placeholder, and its
    intersection handler returns without reading the document, so that it
    cannot fail and cannot become active. *)
Theorem inactive_group_inert `{Utils} (env : DroppableEnv) (w : World)
    (Hinactive : disabled env = true
                 \/ droppableGroupID env <> activeDroppableGroupID env) :
  isActiveGroup env = false /\ isActive env = false /\ isDragging env = false
  /\ useMoveSensorEffect env w = w
  /\ useMoveEndSensorEffect env w = w
  /\ usePlaceholderEffect env w = Some w
  /\ intersectionHandleEvent env w = Some w.
Proof.
  assert (isActiveGroup env = false) as Hgroup.
  { unfold isActiveGroup. destruct Hinactive as [->|Hne]; [done|].
    rewrite (bool_decide_eq_false_2 _ Hne). by destruct (disabled env). }
  assert (isDragging env = false) as Hdragging.
  { unfold isDragging, isActive. rewrite Hgroup. by destruct (isSomeDragging env). }
  split; [done|]. split; [by unfold isActive; rewrite Hgroup|].
  split; [done|].
  unfold useMoveSensorEffect, useMoveEndSensorEffect, usePlaceholderEffect,
    intersectionHandleEvent.
  rewrite Hdragging, Hgroup. repeat split.
  by destruct (isSomeDragging env).
Qed.

Lemma inactive_group_inert_witness :
  disabled disabledEnv = true
  /\ intersectionHandleEvent (H:=boardUtils) disabledEnv dropWorld
     = Some dropWorld.
Proof.
  split; [reflexivity|].
  apply (inactive_group_inert (H:=boardUtils) disabledEnv dropWorld).
  by left.
Defined.

(** X18. The outcomes of an intersection sample, for a dragged id that a
    quoted selector matches literally.  When no drag is active, the group
    is not the active one or the container is already active, the handler
    returns at once, whether or not the dragged element exists.  Otherwise
    it throws exactly when the container is not mounted or no connected
    element carries the dragged id; and when it returns, the state is
    unchanged or has one more [onIntersect] call and nothing else. *)
Theorem intersectionHandleEvent_outcomes `{Utils} (env : DroppableEnv)
    (w : World)
    (Hliteral : selectorLiteral (activeDraggableID env) = true) :
  (isSomeDragging env = false \/ isActiveGroup env = false
   \/ isActive env = true -> intersectionHandleEvent env w = Some w)
  /\ (isSomeDragging env = true -> isActiveGroup env = true ->
      isActive env = false ->
      (intersectionHandleEvent env w = None
       <-> rootNode env = None
           \/ getActiveDraggableNode w (contextID env) (activeDraggableID env)
              = None))
  /\ forall w',
       intersectionHandleEvent env w = Some w' ->
       w' = w \/ w' = logCall (CallOnIntersect (droppableID env)) w.
Proof.
  unfold intersectionHandleEvent. split; [|split].
  - intros [->|[->| ->]]; [done| |];
      destruct (isSomeDragging env); try done;
      by destruct (isActiveGroup env).
  - intros -> -> ->. cbn [negb].
    destruct (rootNode env) as [root|];
      destruct (getActiveDraggableNode _ _ _) as [draggable|].
    + split; [|by intros [?|?]]. by destruct (_ && _).
    + split; [by right | done].
    + split; [by left | done].
    + split; [by left | done].
  - intros w'.
    destruct (negb (isSomeDragging env)); [intros [= <-]; by left|].
    destruct (negb (isActiveGroup env)); [intros [= <-]; by left|].
    destruct (isActive env); [intros [= <-]; by left|].
    destruct (rootNode env);
      destruct (getActiveDraggableNode w (contextID env) (activeDraggableID env));
      try done.
    destruct (_ && _); intros [= <-]; [by right | by left].
Qed.

Lemma intersectionHandleEvent_outcomes_witness :
  selectorLiteral (activeDraggableID hoverEnv) = true
  /\ forall w',
       intersectionHandleEvent (H:=boardUtils) hoverEnv
         (hoverWorld (mkRect 20 20 50 50)) = Some w' ->
       w' = hoverWorld (mkRect 20 20 50 50)
       \/ w' = logCall (CallOnIntersect (droppableID hoverEnv))
                 (hoverWorld (mkRect 20 20 50 50)).
Proof.
  split; [reflexivity|].
  exact (proj2 (proj2 (intersectionHandleEvent_outcomes (H:=boardUtils)
                         hoverEnv (hoverWorld (mkRect 20 20 50 50))
                         eq_refl))).
Defined.

Lemma applyTransition_listeners `{Utils} (env : DroppableEnv)
    (nearest : option NodeId) (w w' : World) :
  applyTransition env nearest w = Some w' -> listeners w' = listeners w.
Proof.
  unfold applyTransition, applyTargetNodeTransition.
  destruct (getActiveDraggableNode _ _ _) as [targetNode|]; [|done].
  destruct (getActiveDroppableNode _ _ _) as [droppableNode|]; [|done].
  destruct (getDroppableContainerOffsets _ _) as [droppableTop droppableLeft].
  destruct (hasTransform w targetNode); by intros [= <-].
Qed.

Lemma deliverTransitionEnd_unheard `{Utils} (current : NodeId)
    (e : TransitionEvent) (w : World) :
  (forall l, l ∈ listeners w -> listenerTarget l = NodeTarget current ->
             listenerType l = "transitionend" -> False) ->
  deliverTransitionEnd current e w = Some w.
Proof.
  unfold deliverTransitionEnd. generalize (listeners w) as ls.
  induction ls as [|l ls IH]; intros Hnone; cbn [foldl]; [done|].
  assert (forall l', l' ∈ ls -> listenerTarget l' = NodeTarget current ->
                     listenerType l' = "transitionend" -> False) as Hrest.
  { intros l' Hl'. apply Hnone. by apply list_elem_of_further. }
  destruct (listenerCallback l) as [k|k env nearest]; [by apply IH|].
  destruct (decide (listenerTarget l = NodeTarget current)) as [Ht|Ht].
  - destruct (decide (listenerType l = "transitionend")) as [Hty|Hty].
    + destruct (Hnone l (list_elem_of_here _ _) Ht Hty).
    + rewrite (bool_decide_eq_false_2 _ Hty), andb_false_r. by apply IH.
  - rewrite (bool_decide_eq_false_2 _ Ht). by apply IH.
Qed.

(** X19. The transition listener is one-shot.  When [handleTransitionEnd]
    handles a [transform] event of the nearest node and the settle step
    returns, the listener is gone and the other listeners are as before; if
    it was the only [transitionend] listener of that node, a further
    [transitionend] event delivered there changes nothing, so the settle
    step cannot run twice.  It fails only if the settle step does. *)
Theorem handleTransitionEnd_once `{Utils} (k : nat) (env : DroppableEnv)
    (nearest : NodeId) (e : TransitionEvent) (w : World)
    (Htarget : eventTarget e = nearest)
    (Hproperty : propertyName e = "transform") :
  let l :=
    mkListener (NodeTarget nearest) "transitionend"
      (HandleTransitionEnd k env nearest) in
  match handleTransitionEnd k env nearest e w with
  | None =>
      applyTransition env (Some nearest)
        (removeEventListener (NodeTarget nearest) "transitionend"
           (HandleTransitionEnd k env nearest) w) = None
  | Some w' =>
      (forall l', l' ∈ listeners w' <-> l' ∈ listeners w /\ l' <> l)
      /\ ((forall l', l' ∈ listeners w ->
              listenerTarget l' = NodeTarget nearest ->
              listenerType l' = "transitionend" -> l' = l) ->
          forall e', deliverTransitionEnd nearest e' w' = Some w')
  end.
Proof.
  intros l. unfold handleTransitionEnd.
  rewrite !bool_decide_eq_true_2 by done. cbn [andb].
  destruct (applyTransition _ _ _) as [w'|] eqn:Hsettle; [|done].
  pose proof (applyTransition_listeners _ _ _ _ Hsettle) as Hlisteners.
  assert (forall l', l' ∈ listeners w' <-> l' ∈ listeners w /\ l' <> l)
    as Hleft.
  { intros l'. rewrite Hlisteners. apply removeEventListener_elem. }
  split; [done|].
  intros Honly e'. apply deliverTransitionEnd_unheard.
  intros l' [Hin Hne]%Hleft Ht Hty. apply Hne. by apply Honly.
Qed.

Lemma handleTransitionEnd_once_witness :
  match handleTransitionEnd (H:=boardUtils) 3 dragEnv 3%nat
          (mkTransitionEvent 3%nat "transform") waitingWorld with
  | None => False
  | Some w' => listeners w' = []
  end.
Proof.
  pose proof (handleTransitionEnd_once (H:=boardUtils) 3 dragEnv 3%nat
                (mkTransitionEvent 3%nat "transform") waitingWorld
                eq_refl eq_refl) as Honce.
  cbv zeta in Honce.
  destruct (handleTransitionEnd 3 dragEnv 3%nat
              (mkTransitionEvent 3%nat "transform") waitingWorld)
    as [w'|] eqn:Hrun.
  - destruct Honce as [Hleft _].
    destruct (listeners w') as [|l' ls] eqn:Hls; [done|].
    destruct (proj1 (Hleft l') (list_elem_of_here _ _)) as [Hin Hne].
    exfalso. apply Hne.
    apply list_elem_of_singleton. exact Hin.
  - by vm_compute in Hrun.
Defined.

Lemma usePlaceholderEffect_inserted (env : DroppableEnv) (w : World)
    (container : NodeId) :
  isDragging env = true -> rootNode env = Some container ->
  (container < nextNode w)%nat ->
  exists w1,
    usePlaceholderEffect env w = Some w1
    /\ childNodes (elements w1 container)
       = childNodes (elements w container) ++ [nextNode w]
    /\ parentElement (elements w1 (nextNode w)) = Some container
    /\ removePlaceholder w1 = DetachPlaceholder (nextNode w)
    /\ calls w1 = calls w ++ [CallOnInsertPlaceholder]
    /\ nextNode w1 = S (nextNode w)
    /\ forall m, m <> container -> m <> nextNode w ->
         elements w1 m = elements w m.
Proof.
  intros Hdragging Hroot Halloc.
  assert (container <> nextNode w) as Hne by lia.
  unfold usePlaceholderEffect. rewrite Hdragging, Hroot.
  destruct (createElement_styled env w container Hne)
    as (Hdetached & Hcontainer & Hscope & Hcalls).
  eexists. split; [reflexivity|].
  unfold appendChild. rewrite Hdetached.
  cbn [elements logCall set_calls set_elements calls removePlaceholder
         nextNode].
  rewrite fn_lookup_alter_ne, !fn_lookup_alter by done.
  cbn [childNodes set_childNodes parentElement set_parentElement].
  rewrite Hcontainer, Hscope, Hcalls.
  repeat split.
  intros m Hm1 Hm2. rewrite !fn_lookup_alter_ne by done.
  unfold setStyles, createElement. simpl.
  by rewrite fn_lookup_alter_ne, fn_lookup_insert_ne.
Qed.

(** X20. Inserting twice without a removal in between.  The removal operation
    is overwritten by the second insertion, so the two removals that follow
    detach the second filler only: the first filler stays in the container,
    after the children it had before, and the notification was sent
    twice. *)
Theorem placeholder_double_insert (env : DroppableEnv) (w : World)
    (container : NodeId)
    (Hdragging : isDragging env = true)
    (Hroot : rootNode env = Some container)
    (Halloc : (container < nextNode w)%nat)
    (Hfresh : forall x, x ∈ childNodes (elements w container) ->
                (x < nextNode w)%nat) :
  exists w1 w2 w3,
    usePlaceholderEffect env w = Some w1
    /\ usePlaceholderEffect env w1 = Some w2
    /\ childNodes (elements w2 container)
       = childNodes (elements w container) ++ [nextNode w; S (nextNode w)]
    /\ callRemovePlaceholder w2 = Some w3
    /\ callRemovePlaceholder w3 = Some w3
    /\ childNodes (elements w3 container)
       = childNodes (elements w container) ++ [nextNode w]
    /\ parentElement (elements w3 (nextNode w)) = Some container
    /\ calls w3
       = calls w ++ [CallOnInsertPlaceholder; CallOnInsertPlaceholder].
Proof.
  destruct (usePlaceholderEffect_inserted env w container Hdragging Hroot Halloc)
    as (w1 & Hfirst & Hkids1 & Hparent1 & Hscope1 & Hcalls1 & Hnext1 & Hframe1).
  assert (container < nextNode w1)%nat as Halloc1 by lia.
  destruct (usePlaceholderEffect_inserted env w1 container Hdragging Hroot
              Halloc1)
    as (w2 & Hsecond & Hkids2 & Hparent2 & Hscope2 & Hcalls2 & Hnext2 & Hframe2).
  rewrite Hnext1 in Hkids2, Hparent2, Hscope2, Hframe2.
  set (p1 := nextNode w) in *. set (p2 := S p1) in *.
  assert (container <> p2) as Hne2 by (subst p2 p1; lia).
  destruct (removeChild_spec container p2 w2 Hne2) as (Hfiltered & Hgone & Hcalls3).
  set (w3 := set_removePlaceholder NoopRemove (removeChild container p2 w2)).
  exists w1, w2, w3.
  assert (childNodes (elements w3 container)
          = childNodes (elements w container) ++ [p1]) as Hkids3.
  { change (elements w3 container)
      with (elements (removeChild container p2 w2) container).
    rewrite Hfiltered, Hkids2, Hkids1. apply filter_appended.
    intros [Hin|Heq%list_elem_of_singleton]%elem_of_app.
    - specialize (Hfresh _ Hin). subst p2 p1. lia.
    - subst p2. lia. }
  split; [done|]. split; [done|].
  split; [by rewrite Hkids2, Hkids1, <- app_assoc|].
  split.
  { unfold callRemovePlaceholder. by rewrite Hscope2, Hparent2. }
  split; [done|]. split; [done|]. split.
  - change (elements w3 p1) with (elements (removeChild container p2 w2) p1).
    unfold removeChild. simpl.
    rewrite !fn_lookup_alter_ne by (subst p2 p1; lia).
    rewrite Hframe2 by (subst p2 p1; lia). done.
  - change (calls w3) with (calls (removeChild container p2 w2)).
    by rewrite Hcalls3, Hcalls2, Hcalls1, <- app_assoc.
Qed.

Lemma placeholder_double_insert_witness :
  exists w1 w2 w3,
    usePlaceholderEffect dragEnv dragWorld = Some w1
    /\ usePlaceholderEffect dragEnv w1 = Some w2
    /\ callRemovePlaceholder w2 = Some w3
    /\ callRemovePlaceholder w3 = Some w3
    /\ childNodes (elements w3 0%nat) = [1; 2; 3; 4; 5]%nat.
Proof.
  assert (forall x, x ∈ [1; 2; 3; 4]%nat -> (x < 5)%nat) as Hfresh.
  { intros x Hx. repeat (apply elem_of_cons in Hx as [->|Hx]; [lia|]).
    by apply elem_of_nil in Hx. }
  destruct (placeholder_double_insert dragEnv dragWorld 0%nat eq_refl eq_refl
              (le_S _ _ (le_S _ _ (le_S _ _ (le_S _ _ (le_n 1))))) Hfresh)
    as (w1 & w2 & w3 & H1 & H2 & _ & H3 & H4 & Hkids & _).
  exists w1, w2, w3. repeat split; assumption.
Defined.

(** X21. A release with nothing to wait for commits within the handler.  When
    the recorded nearest node is absent or carries no transform, the dragged
    element is found and carries no transform and the active container is
    found, the release runs every unsubscriber, then reports the descriptor
    to [onDragEnd] in the same call, with the registry drained, no style
    written, and the cleanup left on a zero-delay timer. *)
Theorem moveEndHandleEvent_commits `{Utils} (env : DroppableEnv) (w : World)
    (targetNode droppableNode : NodeId)
    (Hnearest : match nearestNodeRef w with
                | Some nearest => hasTransform w nearest = false
                | None => True
                end)
    (Htarget : getActiveDraggableNode w (contextID env) (activeDraggableID env)
               = Some targetNode)
    (Hcontainer : getActiveDroppableNode (unsubscribeAll w) (contextID env)
                    (activeDroppableID env) = Some droppableNode)
    (Hplain : hasTransform w targetNode = false) :
  exists w',
    moveEndHandleEvent env w = Some w'
    /\ calls w'
       = calls w ++ (CallUnsubscribe <$> unsubscribers w)
         ++ [CallOnDragEnd (dragEndDescriptor env targetNode w)]
    /\ timers w' = timers w ++ [(0, DragEndCleanupTask env)]
    /\ elements w' = elements w
    /\ unsubscribers w' = []
    /\ listeners w' = listeners (unsubscribeAll w).
Proof.
  destruct (unsubscribeAll_frame w) as (Hels & Htimers & Href & _ & Hcalls).
  assert (forall n, hasTransform (unsubscribeAll w) n = hasTransform w n)
    as Hsame.
  { intros n. unfold hasTransform, getComputedStyle. by rewrite Hels. }
  exists (handleDragEnd env targetNode (unsubscribeAll w)).
  split.
  - assert (applyTransition env (nearestNodeRef w) (unsubscribeAll w)
            = Some (handleDragEnd env targetNode (unsubscribeAll w))) as Happly.
    { unfold applyTransition.
      rewrite (getActiveDraggableNode_elements w (unsubscribeAll w))
        by (done || apply unsubscribeAll_dndElements).
      rewrite Htarget. unfold applyTargetNodeTransition.
      rewrite Hcontainer.
      destruct (getDroppableContainerOffsets _ _).
      by rewrite Hsame, Hplain. }
    unfold moveEndHandleEvent. rewrite Href.
    destruct (nearestNodeRef w) as [nearest|]; [|done].
    by rewrite Hsame, Hnearest.
  - unfold handleDragEnd.
    cbn [calls timers elements unsubscribers listeners logCall set_calls
           setTimeout set_timers].
    rewrite (dragEndDescriptor_elements env targetNode w (unsubscribeAll w))
      by done.
    rewrite Hcalls, Htimers, Hels, <- app_assoc.
    repeat split. by rewrite unsubscribeAll_unfold.
Qed.

Lemma moveEndHandleEvent_commits_witness :
  exists w',
    moveEndHandleEvent (H:=boardUtils) dropEnv dropWorld = Some w'
    /\ calls w'
       = [CallOnDragEnd (Descriptor.mk "a" "list" "g" 0 1 false 1%nat)].
Proof.
  destruct (moveEndHandleEvent_commits (H:=boardUtils) dropEnv dropWorld
              1%nat 0%nat I eq_refl eq_refl eq_refl)
    as (w' & Hrun & Hcalls & _).
  exists w'. split; [exact Hrun|]. exact Hcalls.
Defined.

(** X22. A move sample.  A touch event is read through its first touch point
    only and gives what the mouse event at that point gives; a touch event
    without touch points throws.  A sample records the nearest node of its
    pass in [nearestNodeRef], where the release finds it, and reports it to
    [onDragOver] once; the recorded node is a listed sibling other than the
    dragged one; listeners, timers and registry are as before. *)
Theorem moveSensorHandleEvent_sample `{Utils} (env : DroppableEnv)
    (target : NodeId) (w : World) :
  (forall touch touches,
      moveSensorHandleEvent env (TouchEvent target (touch :: touches)) w
      = moveSensorHandleEvent env
          (MouseEvent target (clientX touch) (clientY touch)) w)
  /\ moveSensorHandleEvent env (TouchEvent target []) w = None
  /\ forall x y,
       let p := reorderPass env target (mkPointer x y) w in
       exists w',
         moveSensorHandleEvent env (MouseEvent target x y) w = Some w'
         /\ nearestNodeRef w' = nearestNode p
         /\ nearestNodeRef (unsubscribeAll w') = nearestNode p
         /\ calls w' = calls w ++ [CallOnDragOver (nearestNode p) target]
         /\ elements w' = elements (passWorld p)
         /\ listeners w' = listeners w /\ timers w' = timers w
         /\ unsubscribers w' = unsubscribers w
         /\ forall n, nearestNode p = Some n ->
              n ∈ nodes env
              /\ detectIsActiveDraggableNode w n (activeDraggableID env)
                 = false.
Proof.
  split; [done|]. split; [done|]. intros x y p.
  eexists. split; [reflexivity|].
  assert (onlyElementsDiffer w (passWorld p)) as Hdiffer.
  { subst p. rewrite reorderPass_fused.
    apply (pass_differ env target (mkPointer x y) w (nodes env)
             (mkPass w None None)). }
  destruct Hdiffer as (_ & _ & _ & Hlisteners & _ & Hunsub & Htimers & _ & _
                       & Hcalls).
  unfold transformNodesByTarget, onMarkNearestNode. fold p.
  split; [done|]. split.
  { by destruct (unsubscribeAll_frame
                   (logCall (CallOnDragOver (nearestNode p) target)
                      (set_nearestNodeRef (nearestNode p) (passWorld p))))
      as (_ & _ & -> & _). }
  split; [by simpl; rewrite Hcalls|].
  split; [done|]. split; [done|]. split; [done|]. split; [done|].
  intros n Hn.
  pose proof (pass_nearest env target (mkPointer x y) w (nodes env)) as Hnear.
  cbv zeta in Hnear. rewrite <- reorderPass_fused in Hnear. fold p in Hnear.
  rewrite Hn in Hnear.
  destruct Hnear as (_ & Hdragged & _ & l1 & l2 & Hsplit & _).
  split; [|done]. rewrite Hsplit. apply elem_of_app. right.
  apply list_elem_of_here.
Qed.
